(** * Seasonal compositing notebooks: a shallow embedding

    The repository is a set of Jupyter notebooks that drive xarray, numpy
    and the Open Data Cube.  The embedding below follows the notebook
    statements one by one; the array primitives they call ([where],
    [combine_first], [groupby(...).median], positional indexing,
    arithmetic, [sum]) are written out with the semantics of those
    libraries.  Cell values are IEEE 754 floats, taken from the kernel's
    specification of floating point arithmetic ([SpecFloat]): a missing
    observation is the float NaN, as in xarray. *)

From Stdlib Require Import ZArith Bool Lia.
From Stdlib Require Import Floats.SpecFloat.
From stdpp Require Import base option list gmap strings sorting.

Local Open Scope Z_scope.

(** ** Results of notebook expressions that may raise *)

Inductive error :=
  | IndexError
  | ValueError (msg : string)
  | AttributeError (name : string)
  | NameError (name : string)
  | TypeError (name : string).

Inductive result (A : Type) := Ok (a : A) | Raise (e : error).
Arguments Ok {A} a.
Arguments Raise {A} e.

Definition bind {A B} (r : result A) (k : A → result B) : result B :=
  match r with
  | Ok a => k a
  | Raise e => Raise e
  end.

Notation "x ←! r ; k" := (bind r (λ x, k))
  (at level 20, r at level 100, k at level 200, right associativity,
   format "x  ←!  r ;  '/' k").

(** ** Float cells *)

Module Float.

(** numpy's float64 (binary64).  The notebooks never fix the dtype of the
    loaded bands; the general results below do not depend on the values
    of [prec] and [emax], so they hold for float32 arrays as well. *)
Definition prec : Z := 53.
Definition emax : Z := 1024.

Definition nan : spec_float := S754_nan.

(** [numpy.isnan] / [xarray.isnull] on a float cell. *)
Definition isnull (v : spec_float) : bool :=
  match v with
  | S754_nan => true
  | _ => false
  end.

Definition add : spec_float → spec_float → spec_float := SFadd prec emax.
Definition sub : spec_float → spec_float → spec_float := SFsub prec emax.
Definition mul : spec_float → spec_float → spec_float := SFmul prec emax.
Definition div : spec_float → spec_float → spec_float := SFdiv prec emax.

(** Integer literals of the notebooks ([0], [1], [2]) and integer band
    values, converted to float. *)
Definition of_Z (z : Z) : spec_float := binary_normalize prec emax z 0 false.

(** Comparisons as numpy evaluates them: every ordered comparison with
    NaN is false, [!=] with NaN is true. *)
Definition ge (a b : spec_float) : bool := SFleb b a.
Definition le (a b : spec_float) : bool := SFleb a b.
Definition gt (a b : spec_float) : bool := SFltb b a.
Definition lt (a b : spec_float) : bool := SFltb a b.
Definition ne (a b : spec_float) : bool := negb (SFeqb a b).
Definition eq (a b : spec_float) : bool := SFeqb a b.

End Float.

Abbreviation float := spec_float.
Abbreviation nan := Float.nan.
Abbreviation isnull := Float.isnull.

(** ** Time coordinate *)

(** A [datetime64] label of the time coordinate, by its calendar fields
    (the accessors [time.year], [time.season], [time.dt.minute] read
    them). *)
Record timestamp := Timestamp {
  year : Z;
  month : Z;
  day : Z;
  hour : Z;
  minute : Z
}.

Global Instance timestamp_eq_dec : EqDecision timestamp.
Proof. solve_decision. Defined.

Inductive season := DJF | MAM | JJA | SON.

Global Instance season_eq_dec : EqDecision season.
Proof. solve_decision. Defined.

(** xarray's [time.season]: [seasons[(month // 3) % 4]] over
    [DJF, MAM, JJA, SON]. *)
Definition season_of_month (m : Z) : season :=
  match (m `div` 3) `mod` 4 with
  | 0 => DJF
  | 1 => MAM
  | 2 => JJA
  | _ => SON
  end.

Definition time_season (t : timestamp) : season := season_of_month (month t).

(** Chronological order of two labels. *)
Definition ts_ltb (a b : timestamp) : bool :=
  match year a ?= year b with
  | Lt => true
  | Gt => false
  | Eq =>
    match month a ?= month b with
    | Lt => true
    | Gt => false
    | Eq =>
      match day a ?= day b with
      | Lt => true
      | Gt => false
      | Eq =>
        match hour a ?= hour b with
        | Lt => true
        | Gt => false
        | Eq => minute a <? minute b
        end
      end
    end
  end.

(** Sorted insertion that keeps one copy of each label: the building
    block of a sorted index of unique values. *)
Fixpoint insert_uniq {A} `{EqDecision A} (ltb : A → A → bool) (x : A) (l : list A) : list A :=
  match l with
  | [] => [x]
  | y :: l' =>
    if decide (x = y) then l
    else if ltb x y then x :: l
    else y :: insert_uniq ltb x l'
  end.

Definition sort_uniq {A} `{EqDecision A} (ltb : A → A → bool) (l : list A) : list A :=
  foldr (insert_uniq ltb) [] l.

(** ** Arrays *)

(** A [DataArray] with dimensions (time, y, x): the time coordinate
    paired with the slice observed at that time.  A slice is the 2-D
    (y, x) grid in row-major order.  All arrays of one pipeline share the
    spatial grid (the Landsat product is loaded with the resolution of the
    Sentinel-2 product for that purpose), so the spatial coordinates are
    positions in the slice. *)
Abbreviation DataArray V := (list (timestamp * list V)).

Abbreviation raster := (list spec_float).

(** The time index of an array. *)
Definition times {V} (da : DataArray V) : list timestamp := da.*1.

(** [da.sel(time=t)]: the slice labelled [t]. *)
Fixpoint sel_time {V} (da : DataArray V) (t : timestamp) : option (list V) :=
  match da with
  | [] => None
  | (t', r) :: da' => if decide (t' = t) then Some r else sel_time da' t
  end.

(** The cell at time position [i] and pixel position [p]. *)
Definition cell {V} (da : DataArray V) (i p : nat) : option V :=
  s ← da !! i; s.2 !! p.

(** [shape_yx n da]: every slice of [da] has [n] pixels. *)
Definition shape_yx {V} (n : nat) (da : DataArray V) : Prop :=
  Forall (λ s : timestamp * list V, length s.2 = n) da.

(** Elementwise application of [f] (comparisons with a scalar, scalar
    arithmetic). *)
Definition da_map {V W} (f : V → W) (da : DataArray V) : DataArray W :=
  (λ s : timestamp * list V, (s.1, f <$> s.2)) <$> da.

(** A condition on the time coordinate alone ([da['time.season'] == ...]),
    broadcast against the array it is taken from. *)
Definition da_time_cond {V} (f : timestamp → bool) (da : DataArray V) : DataArray bool :=
  (λ s : timestamp * list V, (s.1, (λ _, f s.1) <$> s.2)) <$> da.

(** Elementwise application of a function of the time label and the
    value: the common form of the conditions and of the masked arrays
    that are computed from one array. *)
Definition da_map_time {V W} (g : timestamp → V → W) (da : DataArray V) : DataArray W :=
  (λ s : timestamp * list V, (s.1, g s.1 <$> s.2)) <$> da.

(** Elementwise binary operation on two arrays over the same coordinates. *)
Definition da_zip {U V W} (f : U → V → W) (a : DataArray U) (b : DataArray V) : DataArray W :=
  zip_with (λ (s1 : timestamp * list U) (s2 : timestamp * list V), (s1.1, zip_with f s1.2 s2.2)) a b.

(** [a & b] on boolean arrays. *)
Definition da_and (a b : DataArray bool) : DataArray bool := da_zip andb a b.

(** [da.where(cond)]: the value where the condition holds, NaN elsewhere;
    the shape and the time coordinate are kept. *)
Definition where_ (da : DataArray float) (cond : DataArray bool) : DataArray float :=
  da_zip (λ v (c : bool), if c then v else nan) da cond.

(** Number of pixels of a slice of the array (0 for an array without
    time steps). *)
Definition npix {V} (da : DataArray V) : nat :=
  match da with
  | [] => 0%nat
  | s :: _ => length s.2
  end.

(** ** CrossSensorMerge: [combine_first] *)

(** pandas' [Index.union] as xarray's outer join calls it: the sorted
    unique labels of both indexes; an index equal to the other one, or
    joined with an empty one, is returned as it is. *)
Definition index_union (ia ib : list timestamp) : list timestamp :=
  if decide (ia = ib) then ia
  else if decide (ib = []) then ia
  else if decide (ia = []) then ib
  else sort_uniq ts_ltb (ia ++ ib).

(** [da.reindex(time=idx)]: the slice of each label of [idx], a slice of
    NaN for a label the array does not have. *)
Definition reindex_time (n : nat) (idx : list timestamp) (da : DataArray spec_float) : DataArray spec_float :=
  (λ t, (t, default (replicate n nan) (sel_time da t))) <$> idx.

(** [fillna] on aligned arrays: the first array's cell unless it is NaN. *)
Definition fillna (a b : DataArray spec_float) : DataArray spec_float :=
  da_zip (λ x y, if isnull x then y else x) a b.

(** [a.combine_first(b)] = [fillna(a, b, join="outer")]: both arrays are
    reindexed to the union of their time labels, then the cells that [a]
    lacks are taken from [b]. *)
Definition combine_first (a b : DataArray spec_float) : DataArray spec_float :=
  let idx := index_union (times a) (times b) in
  let n := npix (a ++ b) in
  fillna (reindex_time n idx a) (reindex_time n idx b).

(** ** SeasonalAggregator: [groupby('time.year').median(dim='time', skipna=True)] *)

Fixpoint insert_float (x : spec_float) (l : list spec_float) : list spec_float :=
  match l with
  | [] => [x]
  | y :: l' => if Float.le x y then x :: l else y :: insert_float x l'
  end.

Definition sort_floats (l : list spec_float) : list spec_float :=
  foldr insert_float [] l.

(** [numpy.nanmedian] of a 1-D array: NaN cells are removed, the rest is
    sorted; the middle value, or the mean of the two middle values; NaN
    when nothing is left (numpy warns "All-NaN slice encountered" and
    does not raise). *)
Definition nanmedian (l : list spec_float) : spec_float :=
  let s := sort_floats (List.filter (λ v, negb (isnull v)) l) in
  let n := length s in
  if (n =? 0)%nat then nan
  else if Nat.even n
    then Float.div (Float.add (nth (n / 2 - 1) s nan) (nth (n / 2) s nan)) (Float.of_Z 2)
    else nth (n / 2) s nan.

(** The unique values of [time.year], ascending: the [year] coordinate
    of the grouped result. *)
Definition years_index {V} (da : DataArray V) : list Z :=
  sort_uniq Z.ltb (year <$> times da).

(** The time steps of the group of year [y]. *)
Definition group_year {V} (y : Z) (da : DataArray V) : DataArray V :=
  List.filter (λ s : timestamp * list V, bool_decide (year s.1 = y)) da.

(** The values of pixel [p] along time. *)
Definition pixel_series {V} (p : nat) (g : DataArray V) : list V :=
  omap (λ s : timestamp * list V, s.2 !! p) g.

(** [median(dim='time', skipna=True)] of one group. *)
Definition median_time (n : nat) (g : DataArray spec_float) : raster :=
  (λ p, nanmedian (pixel_series p g)) <$> seq 0 n.

(** Composites: dimensions (year, y, x). *)
Definition groupby_year_median (da : DataArray spec_float) : list (Z * raster) :=
  (λ y, (y, median_time (npix da) (group_year y da))) <$> years_index da.

(** [s2_l8_ind.where((s2_l8_ind['time.season'] == 'JJA') & (s2_l8_ind >= 0) & (s2_l8_ind <= 1))] *)
Definition s2_l8_ind_spy (s2_l8_ind : DataArray spec_float) : DataArray spec_float :=
  where_ s2_l8_ind
    (da_and
       (da_and (da_time_cond (λ t, bool_decide (time_season t = JJA)) s2_l8_ind)
               (da_map (λ v, Float.ge v (Float.of_Z 0)) s2_l8_ind))
       (da_map (λ v, Float.le v (Float.of_Z 1)) s2_l8_ind)).

(** [mpspy]: median per summer per year of the merged optical index. *)
Definition mpspy (s2_l8_ind : DataArray spec_float) : list (Z * raster) :=
  groupby_year_median (s2_l8_ind_spy s2_l8_ind).

(** [mpspy_vh_asc = vh_asc.where(vh_asc['time.season'] == 'JJA')
    .groupby('time.year').median(dim='time', skipna=True)]; the
    composites [mpspy_vh_desc], [mpspy_vvvh_asc] and [mpspy_vvvh_desc]
    are computed by the same expression from their own filtered series. *)
Definition mpspy_vh_asc (filtered : DataArray spec_float) : list (Z * raster) :=
  groupby_year_median
    (where_ filtered (da_time_cond (λ t, bool_decide (time_season t = JJA)) filtered)).

(** [m.sel(year=y)]: the composite labelled [y]. *)
Fixpoint sel_year (m : list (Z * raster)) (y : Z) : option raster :=
  match m with
  | [] => None
  | (y', r) :: m' => if decide (y' = y) then Some r else sel_year m' y
  end.

(** The observations of pixel [p] that take part in the optical
    composite of year [y], stated on the merged series itself: those of
    the summer months with a value in [0, 1]. *)
Definition in_range_jja (t : timestamp) (v : spec_float) : bool :=
  bool_decide (time_season t = JJA) && Float.ge v (Float.of_Z 0) && Float.le v (Float.of_Z 1).

Definition kept_values (y : Z) (p : nat) (da : DataArray spec_float) : list spec_float :=
  omap (λ s : timestamp * list spec_float,
          v ← s.2 !! p;
          if bool_decide (year s.1 = y) && in_range_jja s.1 v then Some v else None) da.

(** ** TemporalDiff: positional indexing and slice arithmetic *)

(** [a[i]] on the first dimension, as numpy and xarray index: a negative
    [i] counts from the end, an index outside [-n, n) raises. *)
Definition getitem {A} (l : list A) (i : Z) : result A :=
  let n := Z.of_nat (length l) in
  let j := if i <? 0 then i + n else i in
  if (j <? 0) || (n <=? j) then Raise IndexError
  else
    match l !! Z.to_nat j with
    | Some a => Ok a
    | None => Raise IndexError
    end.

(** [mpspy[i,:,:]]: the composite at year position [i]. *)
Definition isel_year (m : list (Z * raster)) (i : Z) : result raster :=
  s ←! getitem m i; Ok s.2.

Definition r_add (a b : raster) : raster := zip_with Float.add a b.
Definition r_sub (a b : raster) : raster := zip_with Float.sub a b.
Definition r_div (a : raster) (k : spec_float) : raster := (λ v, Float.div v k) <$> a.

(** [diff_18 = mpspy[1,:,:] - mpspy[0,:,:]] *)
Definition diff_18 (m : list (Z * raster)) : result raster :=
  a ←! isel_year m 1; b ←! isel_year m 0; Ok (r_sub a b).

(** [diff_19 = mpspy[2,:,:] - mpspy[0,:,:]] *)
Definition diff_19 (m : list (Z * raster)) : result raster :=
  a ←! isel_year m 2; b ←! isel_year m 0; Ok (r_sub a b).

(** [diff_1819 = ( ( mpspy[2,:,:] + mpspy[1,:,:] ) / 2 ) - mpspy[0,:,:]];
    the SAR cell computes [diff_1819_vh_asc], [diff_1819_vh_desc],
    [diff_1819_vvvh_asc] and [diff_1819_vvvh_desc] by the same expression
    over its own composites. *)
Definition diff_1819 (m : list (Z * raster)) : result raster :=
  a ←! isel_year m 2; b ←! isel_year m 1; c ←! isel_year m 0;
  Ok (r_sub (r_div (r_add a b) (Float.of_Z 2)) c).

Definition diff_1819_vh_asc (mpspy_vh_asc : list (Z * raster)) : result raster :=
  diff_1819 mpspy_vh_asc.

(** The same two expressions with the year positions as variables; the
    notebook's statements are their instances at positions 0, 1 and 2. *)
Definition diff_at (m : list (Z * raster)) (i base : Z) : result raster :=
  a ←! isel_year m i; b ←! isel_year m base; Ok (r_sub a b).

Definition diff_avg_at (m : list (Z * raster)) (i j base : Z) : result raster :=
  a ←! isel_year m i; b ←! isel_year m j; c ←! isel_year m base;
  Ok (r_sub (r_div (r_add a b) (Float.of_Z 2)) c).

(** ** Datasets *)

(** An xarray [Dataset]: data variables by name, over shared coordinates.
    [ds.name] raises [AttributeError] for a variable the dataset lacks. *)
Definition getattr {V} (ds : gmap string (DataArray V)) (name : string) : result (DataArray V) :=
  match ds !! name with
  | Some da => Ok da
  | None => Raise (AttributeError name)
  end.

(** [ds.where(mask)]: every data variable is masked; integer bands become
    float, since a masked cell is NaN. *)
Definition ds_where (ds : gmap string (DataArray Z)) (mask : DataArray bool) : gmap string (DataArray spec_float) :=
  (λ da, where_ (da_map Float.of_Z da) mask) <$> ds.

(** ** IndexCompute: [bandindices.optical] and [bandindices.sar] *)

(** Modelled from the spec: the module [utils/bandindices.py] (functions
    [optical] and [sar]) is not among the sources, only its calls are.
    The spec gives three index variants: normalized difference
    [(a - b) / (a + b)], ratio [a / b], and a kernelized normalized
    difference, a nonlinear kernel transform of the normalized
    difference.  The division is numpy's float division, which raises
    nothing.  The kernel is a parameter. *)
Definition normalized_difference (a b : spec_float) : spec_float :=
  Float.div (Float.sub a b) (Float.add a b).

Definition ratio (a b : spec_float) : spec_float := Float.div a b.

Definition kernel_normalized_difference (kernel : spec_float → spec_float) (a b : spec_float) : spec_float :=
  kernel (normalized_difference a b).

(** Modelled from the spec: the optical indexes by name, over the bands
    [nir] and [red]; an unknown name is an error
    ([UnsupportedIndexError] in the spec). *)
Definition optical_index (kernel : spec_float → spec_float) (name : string) : result (spec_float → spec_float → spec_float) :=
  if decide (name = "NDVI") then Ok normalized_difference
  else if decide (name = "kNDVI") then Ok (kernel_normalized_difference kernel)
  else Raise (ValueError name).

(** Modelled from the spec: the SAR indexes by name, over the bands [VV]
    and [VH], both of ratio style. *)
Definition sar_index (name : string) : result (string * string) :=
  if decide (name = "VVVH") then Ok ("VV", "VH")
  else if decide (name = "VHVV") then Ok ("VH", "VV")
  else Raise (ValueError name).

(** Modelled from the spec: the body of [bandindices.optical] is missing.
    The formulas are the spec's; how the result is delivered follows the
    call sites in the notebook, [bandindices.optical(s2, index=[...],
    inplace=True, drop=False, normalise=False)] as a statement whose
    value is dropped, followed by reads of [s2.NDVI]: with [inplace] the
    index variables are added to the dataset object that was passed.
    The result is the pair of the passed object after the call and the
    returned dataset. *)
Fixpoint add_optical_indices (kernel : spec_float → spec_float) (index : list string) (ds : gmap string (DataArray spec_float)) : result (gmap string (DataArray spec_float)) :=
  match index with
  | [] => Ok ds
  | name :: rest =>
    f ←! optical_index kernel name;
    nir ←! getattr ds "nir";
    red ←! getattr ds "red";
    add_optical_indices kernel rest (<[name := da_zip f nir red]> ds)
  end.

Definition optical (kernel : spec_float → spec_float) (ds : gmap string (DataArray spec_float)) (index : list string) (inplace : bool) : result (gmap string (DataArray spec_float) * gmap string (DataArray spec_float)) :=
  out ←! add_optical_indices kernel index ds;
  Ok (if inplace then out else ds, out).

(** Modelled from the spec: [bandindices.sar], delivered like [optical]. *)
Fixpoint add_sar_indices (index : list string) (ds : gmap string (DataArray spec_float)) : result (gmap string (DataArray spec_float)) :=
  match index with
  | [] => Ok ds
  | name :: rest =>
    bands ←! sar_index name;
    a ←! getattr ds bands.1;
    b ←! getattr ds bands.2;
    add_sar_indices rest (<[name := da_zip ratio a b]> ds)
  end.

Definition sar (ds : gmap string (DataArray spec_float)) (index : list string) (inplace : bool) : result (gmap string (DataArray spec_float) * gmap string (DataArray spec_float)) :=
  out ←! add_sar_indices index ds;
  Ok (if inplace then out else ds, out).

(** ** SAR filter by nodata and quantiles *)

(** The Python literals [0.05] and [0.95] as binary64 values. *)
Definition q05 : spec_float := S754_finite false 7205759403792794 (-57).
Definition q95 : spec_float := S754_finite false 8556839292003942 (-53).

(** [(VH != nodata) & (VH >= VH.quantile(0.05)) & (VH <= VH.quantile(0.95))].
    [quantile] is numpy's quantile over the whole array, a parameter here. *)
Definition sar_mask (quantile : DataArray spec_float → spec_float → spec_float) (nodata : spec_float) (VH : DataArray spec_float) : DataArray bool :=
  da_and
    (da_and (da_map (λ v, Float.ne v nodata) VH)
            (da_map (λ v, Float.ge v (quantile VH q05)) VH))
    (da_map (λ v, Float.le v (quantile VH q95)) VH).

(** [vh_asc = ds_s1_asc.VH.where(...)] *)
Definition vh_asc (quantile : DataArray spec_float → spec_float → spec_float) (nodata : spec_float) (VH : DataArray spec_float) : DataArray spec_float :=
  where_ VH (sar_mask quantile nodata VH).

(** [vvvh_asc = ds_s1_asc.VVVH.where(...)], the condition being the one
    of [vh_asc]. *)
Definition vvvh_asc (quantile : DataArray spec_float → spec_float → spec_float) (nodata : spec_float) (VH VVVH : DataArray spec_float) : DataArray spec_float :=
  where_ VVVH (sar_mask quantile nodata VH).

(** ** Observations per pixel *)

(** [xr.where(cond, True, False)] *)
Definition xr_where_bool (cond : DataArray bool) : DataArray bool :=
  da_map (λ c : bool, if c then true else false) cond.

(** [m.sum(dim="time")] of a boolean array: the number of [True] cells
    of each pixel. *)
Definition sum_time (m : DataArray bool) : list Z :=
  foldr (λ (s : timestamp * list bool) acc, zip_with Z.add (Z.b2z <$> s.2) acc)
        (replicate (npix m) 0) m.

(** [count = xr.where(ds.VH > nodata, True, False).sum(dim="time")] *)
Definition count (nodata : spec_float) (VH : DataArray spec_float) : list Z :=
  sum_time (xr_where_bool (da_map (λ v, Float.gt v nodata) VH)).

(** ** QualityMask: [masking.make_mask] *)

(** A required flag value: a label such as ['valid'] or ['clear'], or a
    boolean. *)
Inductive flag_ref := Label (s : string) | Flag (b : bool).

Global Instance flag_ref_eq_dec : EqDecision flag_ref.
Proof. solve_decision. Defined.

(** The bits of a flag in the product's flag definition: one bit
    position, or a list of positions for a multi-bit flag. *)
Inductive flag_bits := Bit (b : Z) | Bits (bs : list Z).

(** One entry of the flag definition: the bits, and the meaning of each
    value of the field. *)
Record flag_defn := FlagDefn {
  bits : flag_bits;
  values : list (Z * flag_ref)
}.

(** [set_value_bit(value, bit, bit_val)] *)
Definition set_value_bit (value bit : Z) (bit_val : bool) : Z :=
  let mask := Z.shiftl 1 bit in
  if bit_val then Z.lor value mask else Z.land value (Z.lnot mask).

(** [[flag_value] = (bit_val for bit_val, val_ref in defn['values'].items()
    if val_ref == flag_ref)]: exactly one value must carry the label. *)
Definition flag_value (defn : flag_defn) (ref : flag_ref) : result Z :=
  match List.filter (λ kv : Z * flag_ref, bool_decide (kv.2 = ref)) (values defn) with
  | [kv] => Ok kv.1
  | _ => Raise (ValueError "Unknown value specified for flag")
  end.

(** [min(defn['bits'])]; Python raises on an empty list. *)
Definition min_bit (bs : list Z) : result Z :=
  match bs with
  | [] => Raise (ValueError "min() arg is an empty sequence")
  | b :: bs' => Ok (foldr Z.min b bs')
  end.

(** [create_mask_value(bits_def, **flags)]: the loop over the required
    flags, accumulating the mask of the bits to compare and the value
    these bits must have. *)
Fixpoint create_mask_value_from (bits_def : gmap string flag_defn) (flags : list (string * flag_ref)) (mask value : Z) : result (Z * Z) :=
  match flags with
  | [] => Ok (mask, value)
  | (flag_name, ref) :: rest =>
    match bits_def !! flag_name with
    | None => Raise (ValueError "Unknown flag")
    | Some defn =>
      fv ←! flag_value defn ref;
      match bits defn with
      | Bits bs =>
        let mask' := foldl (λ m bit, set_value_bit m bit true) mask bs in
        shift ←! min_bit bs;
        let real_val := Z.shiftl fv shift in
        create_mask_value_from bits_def rest mask' (Z.lor value real_val)
      | Bit bit =>
        create_mask_value_from bits_def rest
          (set_value_bit mask bit true)
          (set_value_bit value bit (negb (fv =? 0)))
      end
    end
  end.

Definition create_mask_value (bits_def : gmap string flag_defn) (flags : list (string * flag_ref)) : result (Z * Z) :=
  create_mask_value_from bits_def flags 0 0.

(** [make_mask(variable, **flags)]: [variable & mask == mask_value],
    elementwise. *)
Definition make_mask (bits_def : gmap string flag_defn) (variable : DataArray Z) (flags : list (string * flag_ref)) : result (DataArray bool) :=
  mv ←! create_mask_value bits_def flags;
  Ok (da_map (λ v, Z.land v mv.1 =? mv.2) variable).

(** The predicate set of the notebook. *)
Definition flags : list (string * flag_ref) :=
  [("valid_data", Label "valid");
   ("cloud_state", Label "clear");
   ("cloud_shadow_flag", Flag false);
   ("snow_flag", Flag false);
   ("subzero_flag", Flag false);
   ("saturation_flag", Flag false);
   ("high_sun_zenith_flag", Flag false)].

(** *** What a predicate means on a flag word *)

(** The bits of the word that belong to a flag. *)
Definition field_mask (b : flag_bits) : Z :=
  match b with
  | Bit bit => Z.shiftl 1 bit
  | Bits bs => foldr (λ bit m, Z.lor (Z.shiftl 1 bit) m) 0 bs
  end.

(** The bit pattern that a field value stands for, in place: the value
    shifted to the lowest bit of the flag; for a one-bit flag, the bit
    itself when the value is not zero. *)
Definition field_pattern (b : flag_bits) (fv : Z) : Z :=
  match b with
  | Bit bit => if fv =? 0 then 0 else Z.shiftl 1 bit
  | Bits bs =>
    match bs with
    | [] => 0
    | b0 :: bs' => Z.shiftl fv (foldr Z.min b0 bs')
    end
  end.

(** The predicate [flag_name = ref] holds for the flag word [v]: the
    flag is defined, exactly one field value carries the label, and the
    flag's bits of [v] show that value. *)
Definition predicate_holds (bits_def : gmap string flag_defn) (v : Z) (pred : string * flag_ref) : bool :=
  match bits_def !! pred.1 with
  | None => false
  | Some defn =>
    match flag_value defn pred.2 with
    | Ok fv => Z.land v (field_mask (bits defn)) =? field_pattern (bits defn) fv
    | Raise _ => false
    end
  end.

(** The predicate can be evaluated at all: its flag is defined with at
    least one bit and exactly one field value carries the label. *)
Definition predicate_known (bits_def : gmap string flag_defn) (pred : string * flag_ref) : bool :=
  match bits_def !! pred.1 with
  | None => false
  | Some defn =>
    match flag_value defn pred.2, bits defn with
    | Ok _, Bits [] => false
    | Ok _, _ => true
    | Raise _, _ => false
    end
  end.

Definition bits_list (b : flag_bits) : list Z :=
  match b with
  | Bit bit => [bit]
  | Bits bs => bs
  end.

(** The required value of the flag fits in the flag's own bits, and the
    bit positions are not negative. *)
Definition fits (defn : flag_defn) (ref : flag_ref) : bool :=
  forallb (λ bit, 0 <=? bit) (bits_list (bits defn)) &&
  match flag_value defn ref with
  | Ok fv =>
    Z.land (field_pattern (bits defn) fv) (field_mask (bits defn)) =? field_pattern (bits defn) fv
  | Raise _ => true
  end.

Definition required_field (bits_def : gmap string flag_defn) (pred : string * flag_ref) : Z :=
  match bits_def !! pred.1 with
  | Some defn => field_mask (bits defn)
  | None => 0
  end.

(** No two predicates of the set read a common bit. *)
Fixpoint disjoint_fields (bits_def : gmap string flag_defn) (flags : list (string * flag_ref)) : bool :=
  match flags with
  | [] => true
  | p :: rest =>
    forallb (λ q, Z.land (required_field bits_def p) (required_field bits_def q) =? 0) rest
    && disjoint_fields bits_def rest
  end.

(** The flag definition is well formed for a predicate set: each flag
    is a field of its own in the flag word. *)
Definition well_formed (bits_def : gmap string flag_defn) (flags : list (string * flag_ref)) : bool :=
  forallb (λ p : string * flag_ref,
             match bits_def !! p.1 with
             | Some defn => fits defn p.2
             | None => true
             end) flags
  && disjoint_fields bits_def flags.

(** The quality bits of the FORCE products that the notebooks load
    ([pixel_qa]), as far as the predicate sets of the notebooks use
    them; a sample flag definition. *)
Definition force_qai : gmap string flag_defn :=
  list_to_map
    [("valid_data", FlagDefn (Bit 0) [(0, Label "valid"); (1, Label "no_data")]);
     ("cloud_state", FlagDefn (Bits [1; 2])
        [(0, Label "clear"); (1, Label "less_confident"); (2, Label "confident"); (3, Label "cirrus")]);
     ("cloud_shadow_flag", FlagDefn (Bit 3) [(0, Flag false); (1, Flag true)]);
     ("snow_flag", FlagDefn (Bit 4) [(0, Flag false); (1, Flag true)]);
     ("subzero_flag", FlagDefn (Bit 8) [(0, Flag false); (1, Flag true)]);
     ("saturation_flag", FlagDefn (Bit 9) [(0, Flag false); (1, Flag true)]);
     ("high_sun_zenith_flag", FlagDefn (Bit 10) [(0, Flag false); (1, Flag true)])].

(** ** The optical pipeline as notebook cells *)

(** The objects that the names of the notebook are bound to. *)
Inductive value :=
  | VRaw (ds : gmap string (DataArray Z))
  | VDataset (ds : gmap string (DataArray spec_float))
  | VMask (m : DataArray bool)
  | VArray (a : DataArray spec_float)
  | VComposites (m : list (Z * raster))
  | VRaster (r : raster).

(** Reading a name of the notebook: an unbound name raises [NameError];
    an object of another kind than the statement needs fails in the
    call, [TypeError] here. *)
Definition get_raw (ns : gmap string value) (name : string) : result (gmap string (DataArray Z)) :=
  match ns !! name with
  | Some (VRaw ds) => Ok ds
  | Some _ => Raise (TypeError name)
  | None => Raise (NameError name)
  end.

Definition get_dataset (ns : gmap string value) (name : string) : result (gmap string (DataArray spec_float)) :=
  match ns !! name with
  | Some (VDataset ds) => Ok ds
  | Some _ => Raise (TypeError name)
  | None => Raise (NameError name)
  end.

Definition get_array (ns : gmap string value) (name : string) : result (DataArray spec_float) :=
  match ns !! name with
  | Some (VArray a) => Ok a
  | Some _ => Raise (TypeError name)
  | None => Raise (NameError name)
  end.

Definition get_composites (ns : gmap string value) (name : string) : result (list (Z * raster)) :=
  match ns !! name with
  | Some (VComposites m) => Ok m
  | Some _ => Raise (TypeError name)
  | None => Raise (NameError name)
  end.

(** Masking:
    [mask_s2 = masking.make_mask(ds_s2.pixel_qa, **flags)],
    [mask_l8 = masking.make_mask(ds_l8.pixel_qa, **flags)],
    [s2 = ds_s2.where(mask_s2)], [l8 = ds_l8.where(mask_l8)]. *)
Definition stage_mask (bits_def : gmap string flag_defn) (ns : gmap string value) : result (gmap string value) :=
  ds_s2 ←! get_raw ns "ds_s2";
  ds_l8 ←! get_raw ns "ds_l8";
  qa_s2 ←! getattr ds_s2 "pixel_qa";
  mask_s2 ←! make_mask bits_def qa_s2 flags;
  qa_l8 ←! getattr ds_l8 "pixel_qa";
  mask_l8 ←! make_mask bits_def qa_l8 flags;
  Ok (<["l8" := VDataset (ds_where ds_l8 mask_l8)]>
      (<["s2" := VDataset (ds_where ds_s2 mask_s2)]>
      (<["mask_l8" := VMask mask_l8]>
      (<["mask_s2" := VMask mask_s2]> ns)))).

(** Index computation:
    [bandindices.optical(s2, index=["NDVI", "kNDVI"], inplace=True, ...)],
    [bandindices.optical(l8, index=["NDVI", "kNDVI"], inplace=True, ...)].
    The returned datasets are dropped; the names [s2] and [l8] keep
    denoting the objects that were passed. *)
Definition stage_index (kernel : spec_float → spec_float) (ns : gmap string value) : result (gmap string value) :=
  s2 ←! get_dataset ns "s2";
  r2 ←! optical kernel s2 ["NDVI"; "kNDVI"] true;
  let ns := <["s2" := VDataset r2.1]> ns in
  l8 ←! get_dataset ns "l8";
  r8 ←! optical kernel l8 ["NDVI"; "kNDVI"] true;
  Ok (<["l8" := VDataset r8.1]> ns).

(** Merge: [s2_ind = s2.NDVI], [l8_ind = l8.NDVI],
    [s2_l8_ind = s2_ind.combine_first(l8_ind)]. *)
Definition stage_merge (ns : gmap string value) : result (gmap string value) :=
  s2 ←! get_dataset ns "s2";
  s2_ind ←! getattr s2 "NDVI";
  l8 ←! get_dataset ns "l8";
  l8_ind ←! getattr l8 "NDVI";
  Ok (<["s2_l8_ind" := VArray (combine_first s2_ind l8_ind)]>
      (<["l8_ind" := VArray l8_ind]>
      (<["s2_ind" := VArray s2_ind]> ns))).

(** Aggregation: [s2_l8_ind_spy = s2_l8_ind.where(...)],
    [mpspy = s2_l8_ind_spy.groupby('time.year').median(...)]. *)
Definition stage_aggregate (ns : gmap string value) : result (gmap string value) :=
  s2_l8_ind ←! get_array ns "s2_l8_ind";
  Ok (<["mpspy" := VComposites (mpspy s2_l8_ind)]>
      (<["s2_l8_ind_spy" := VArray (s2_l8_ind_spy s2_l8_ind)]> ns)).

(** Differencing: [diff_18], [diff_19], [diff_1819]. *)
Definition stage_diff (ns : gmap string value) : result (gmap string value) :=
  m ←! get_composites ns "mpspy";
  d18 ←! diff_18 m;
  d19 ←! diff_19 m;
  d1819 ←! diff_1819 m;
  Ok (<["diff_1819" := VRaster d1819]>
      (<["diff_19" := VRaster d19]>
      (<["diff_18" := VRaster d18]> ns))).

(** ** Sample inputs *)

(** The float 0.5. *)
Definition half : spec_float := S754_finite false 4503599627370496 (-53).

(** A sample kernel for the kernelized index: the square. *)
Definition sample_kernel (v : spec_float) : spec_float := Float.mul v v.

(** A sample quantile, for runs of the SAR filter: the least value of
    the array for a fraction up to one half, the greatest value above
    (numpy interpolates between the ranks). *)
Definition sample_quantile (da : DataArray spec_float) (q : spec_float) : spec_float :=
  let s := sort_floats (List.filter (λ v, negb (isnull v)) (concat da.*2)) in
  let k := if Float.le q half then 0%nat else (length s - 1)%nat in
  nth k s nan.

Definition t17 : timestamp := Timestamp 2017 7 1 10 30.
Definition t17_dec : timestamp := Timestamp 2017 12 1 10 30.
Definition t18 : timestamp := Timestamp 2018 7 1 10 30.
Definition t18_l8 : timestamp := Timestamp 2018 7 9 10 0.
Definition t19 : timestamp := Timestamp 2019 1 9 10 0.

(** Two index series over a grid of two pixels: the primary has 2017 and
    2018, the secondary has a winter scene of 2017, the 2018 scene of the
    primary, one more of 2018 and one of January 2019. *)
Definition sample_s2_ind : DataArray spec_float :=
  [(t17, [half; nan]); (t18, [nan; Float.of_Z 1])].

Definition sample_l8_ind : DataArray spec_float :=
  [(t17_dec, [half; half]);
   (t18, [Float.of_Z 1; Float.of_Z 2]);
   (t18_l8, [Float.of_Z 0; half]);
   (t19, [half; half])].

(** Three composites over one pixel. *)
Definition sample_composites : list (Z * raster) :=
  [(2017, [half]); (2018, [Float.of_Z 1]); (2019, [nan])].

(** Loaded optical datasets over two pixels and three summers; the flag
    word 0 is a clear valid pixel, 8 has the cloud shadow bit. *)
Definition sample_ds_s2 : gmap string (DataArray Z) :=
  list_to_map
    [("red", [(t17, [100; 0]); (t18, [200; 300]); (Timestamp 2019 7 1 10 30, [100; 100])]);
     ("nir", [(t17, [300; 0]); (t18, [600; 300]); (Timestamp 2019 7 1 10 30, [500; 700])]);
     ("pixel_qa", [(t17, [0; 0]); (t18, [0; 8]); (Timestamp 2019 7 1 10 30, [0; 0])])].

Definition sample_ds_l8 : gmap string (DataArray Z) :=
  list_to_map
    [("red", [(t18_l8, [100; 100])]);
     ("nir", [(t18_l8, [300; 700])]);
     ("pixel_qa", [(t18_l8, [8; 0])])].

Definition sample_ns : gmap string value :=
  list_to_map [("ds_s2", VRaw sample_ds_s2); ("ds_l8", VRaw sample_ds_l8)].

(** The namespaces along a run of the optical pipeline on the sample. *)
Definition run_stage (stage : gmap string value → result (gmap string value)) (ns : gmap string value) : gmap string value :=
  match stage ns with
  | Ok ns' => ns'
  | Raise _ => ns
  end.

Definition sample_ns1 : gmap string value := run_stage (stage_mask force_qai) sample_ns.
Definition sample_ns2 : gmap string value := run_stage (stage_index sample_kernel) sample_ns1.
Definition sample_ns3 : gmap string value := run_stage stage_merge sample_ns2.
Definition sample_ns4 : gmap string value := run_stage stage_aggregate sample_ns3.
Definition sample_ns5 : gmap string value := run_stage stage_diff sample_ns4.

(** The data variable [band] of the dataset bound to [name]. *)
Definition dataset_var (ns : gmap string value) (name band : string) : option (DataArray spec_float) :=
  match ns !! name with
  | Some (VDataset ds) => ds !! band
  | _ => None
  end.

(** The merged sample series. *)
Definition sample_merged : DataArray spec_float := combine_first sample_s2_ind sample_l8_ind.

(** A flag word stack: clear, cloud shadow, less confident cloud, water
    (not among the predicates), and several flags at once. *)
Definition sample_pixel_qa : DataArray Z := [(t17, [0; 8; 2; 32; 1832])].

(** A SAR band over two pixels and two dates, with the nodata value
    -9999 in one cell, and a ratio band on the same coordinates. *)
Definition sample_nodata : spec_float := Float.of_Z (-9999).

Definition sample_VH : DataArray spec_float :=
  [(t17, [Float.of_Z (-15); sample_nodata]); (t18, [Float.of_Z (-12); Float.of_Z (-20)])].

Definition sample_VVVH : DataArray spec_float :=
  [(t17, [half; half]); (t18, [Float.of_Z 1; Float.of_Z 2])].

(** ** Further cells of the notebooks *)

(** The coordinates of an array: the time labels with the size of the
    slice at each. *)
Definition coords {V} (da : DataArray V) : list (timestamp * nat) :=
  (λ s : timestamp * list V, (s.1, length s.2)) <$> da.

(** [mpspy_vvvh_asc = vvvh_asc.where(vh_asc['time.season'] == 'JJA')
    .groupby('time.year').median(dim='time', skipna=True)]: the season
    is read from the time coordinate of [vh_asc], not of [vvvh_asc]. *)
Definition mpspy_vvvh_asc (vvvh_asc vh_asc : DataArray spec_float) : list (Z * raster) :=
  groupby_year_median
    (where_ vvvh_asc (da_time_cond (λ t, bool_decide (time_season t = JJA)) vh_asc)).

(** [px_good = s2_l8_ind.sel(x=..., y=..., method='nearest')]: the
    series of one pixel along time, [p] being the position of the pixel
    nearest to the point.  A series over time alone is an array whose
    slices hold that one cell. *)
Definition sel_pixel (p : nat) (da : DataArray spec_float) : DataArray spec_float :=
  (λ s : timestamp * list spec_float, (s.1, option_list (s.2 !! p))) <$> da.

(** [ndvi = px_good.where(((px_good >= 0) & (px_good <= 1)))] *)
Definition ndvi (px_good : DataArray spec_float) : DataArray spec_float :=
  where_ px_good
    (da_and (da_map (λ v, Float.ge v (Float.of_Z 0)) px_good)
            (da_map (λ v, Float.le v (Float.of_Z 1)) px_good)).

(** [x.where(x.time.dt.minute == m)] *)
Definition where_minute (m : Z) (x : DataArray spec_float) : DataArray spec_float :=
  where_ x (da_time_cond (λ t, bool_decide (minute t = m)) x).

(** [ndvi_l8 = ndvi.where(ndvi.time.dt.minute == 0)] *)
Definition ndvi_l8 (px_good : DataArray spec_float) : DataArray spec_float :=
  where_minute 0 (ndvi px_good).

(** [ndvi_s2 = ndvi.where(ndvi.time.dt.minute == 30)] *)
Definition ndvi_s2 (px_good : DataArray spec_float) : DataArray spec_float :=
  where_minute 30 (ndvi px_good).

(** [ndvi_jja = px_good.where(((px_good['time.season'] == 'JJA')
    & (px_good >= 0) & (px_good <= 1)))] *)
Definition ndvi_jja (px_good : DataArray spec_float) : DataArray spec_float :=
  where_ px_good
    (da_and
       (da_and (da_time_cond (λ t, bool_decide (time_season t = JJA)) px_good)
               (da_map (λ v, Float.ge v (Float.of_Z 0)) px_good))
       (da_map (λ v, Float.le v (Float.of_Z 1)) px_good)).

(** [ndvi_jja_l8 = ndvi_jja.where(ndvi_jja.time.dt.minute == 0)] *)
Definition ndvi_jja_l8 (px_good : DataArray spec_float) : DataArray spec_float :=
  where_minute 0 (ndvi_jja px_good).

(** [ndvi_jja_s2 = ndvi_jja.where(ndvi_jja.time.dt.minute == 30)] *)
Definition ndvi_jja_s2 (px_good : DataArray spec_float) : DataArray spec_float :=
  where_minute 30 (ndvi_jja px_good).

(** The predicate set of the notebook that counts the optical
    observations per pixel. *)
Definition flags_obs_perpixel : list (string * flag_ref) :=
  [("valid_data", Label "valid");
   ("cloud_state", Label "clear");
   ("cloud_shadow_flag", Flag false)].

(** [count = masking.make_mask(ds.pixel_qa, **flags).sum(dim='time')] *)
Definition count_obs_perpixel_optical (bits_def : gmap string flag_defn) (pixel_qa : DataArray Z) : result (list Z) :=
  m ←! make_mask bits_def pixel_qa flags_obs_perpixel;
  Ok (sum_time m).

(** The calendar fields of a label, most significant first, and the
    lexicographic order on such lists. *)
Definition ts_fields (t : timestamp) : list Z :=
  [year t; month t; day t; hour t; minute t].

Fixpoint lex_ltb (a b : list Z) : bool :=
  match a, b with
  | x :: a', y :: b' =>
    match x ?= y with
    | Lt => true
    | Gt => false
    | Eq => lex_ltb a' b'
    end
  | _, _ => false
  end.

(** The VH observations of pixel [p] that take part in the SAR composite
    of year [y], stated on the loaded band: those of the summer months
    that differ from the nodata value and lie between the two quantiles
    of the band. *)
Definition sar_kept_values (quantile : DataArray spec_float → spec_float → spec_float) (nodata : spec_float) (VH : DataArray spec_float) (y : Z) (p : nat) : list spec_float :=
  omap (λ s : timestamp * list spec_float,
          v ← s.2 !! p;
          if bool_decide (year s.1 = y) && bool_decide (time_season s.1 = JJA)
             && (Float.ne v nodata && Float.ge v (quantile VH q05) && Float.le v (quantile VH q95))
          then Some v else None) VH.

(** More sample inputs: a flag definition that lacks one of the flags
    of the pipeline, a series of a single year, and a pixel series with
    a scene at minute 0, one at minute 30 and one at minute 15. *)
Definition sample_bits_no_zenith : gmap string flag_defn :=
  delete "high_sun_zenith_flag" force_qai.

Definition sample_one_year : DataArray spec_float :=
  [(t17, [half; nan]); (t17_dec, [half; half])].

Definition sample_px : DataArray spec_float :=
  [(Timestamp 2018 7 9 10 0, [half]);
   (Timestamp 2018 7 1 10 30, [Float.of_Z 1]);
   (Timestamp 2018 7 3 10 15, [half]);
   (Timestamp 2018 1 3 10 0, [half])].

(** A stack of flag words along time, for one pixel per column. *)
Definition sample_qa_stack : DataArray Z :=
  [(t17, [0; 8]); (t18, [0; 16]); (t18_l8, [2; 256])].

(** * Properties *)

(** ** Float cells *)

Lemma isnull_true v : isnull v = true ↔ v = nan.
Proof. destruct v; simpl; split; intros H; try done. Qed.

Lemma add_nan_l x : Float.add nan x = nan.
Proof. reflexivity. Qed.

Lemma add_nan_r x : Float.add x nan = nan.
Proof. by destruct x. Qed.

Lemma sub_nan_l x : Float.sub nan x = nan.
Proof. reflexivity. Qed.

Lemma sub_nan_r x : Float.sub x nan = nan.
Proof. by destruct x. Qed.

Lemma mul_nan_l x : Float.mul nan x = nan.
Proof. reflexivity. Qed.

Lemma div_nan_l x : Float.div nan x = nan.
Proof. reflexivity. Qed.

Lemma div_nan_r x : Float.div x nan = nan.
Proof. by destruct x. Qed.

(** Ordered comparisons with NaN are false. *)
Lemma ge_nan_l x : Float.ge nan x = false.
Proof. by destruct x. Qed.

Lemma le_nan_l x : Float.le nan x = false.
Proof. reflexivity. Qed.

Lemma gt_nan_l x : Float.gt nan x = false.
Proof. by destruct x. Qed.


Lemma SFcompare_antisym a b : SFcompare b a = CompOpp <$> SFcompare a b.
Proof.
  destruct a as [sa|sa| |sa ma ea], b as [sb|sb| |sb mb eb]; simpl; try done;
    repeat match goal with
    | s : bool |- _ => destruct s; simpl; try done
    end.
  - rewrite (Z.compare_antisym eb ea).
    destruct (eb ?= ea); simpl; try done.
    f_equal. rewrite CompOpp_involutive.
    exact (Pos.compare_cont_antisym mb ma Eq).
  - rewrite (Z.compare_antisym eb ea).
    destruct (eb ?= ea); simpl; try done.
    f_equal. symmetry.
    exact (Pos.compare_cont_antisym ma mb Eq).
Qed.

(** [a < b] excludes [a >= b], and [a <= b] excludes [a > b]. *)
Lemma lt_not_ge a b : Float.lt a b = true → Float.ge a b = false.
Proof.
  unfold Float.lt, Float.ge, SFltb, SFleb.
  rewrite (SFcompare_antisym a b).
  by destruct (SFcompare a b) as [[]|].
Qed.

Lemma le_not_gt a b : Float.le a b = true → Float.gt a b = false.
Proof.
  unfold Float.le, Float.gt, SFltb, SFleb.
  rewrite (SFcompare_antisym a b).
  by destruct (SFcompare a b) as [[]|].
Qed.

Lemma gt_not_le a b : Float.gt a b = true → Float.le a b = false.
Proof. apply (lt_not_ge b a). Qed.

(** A float compares equal to zero exactly when it is one of the two
    zeros. *)
Lemma eq_zero v : Float.eq v (Float.of_Z 0) = true ↔ ∃ s, v = S754_zero s.
Proof.
  split.
  - intros H. destruct v as [s|s| |s m e]; [by eauto|by destruct s|done|by destruct s].
  - by intros [s ->].
Qed.

(** ** Cells of derived arrays *)

Section cells.
Context {U V W : Type}.

Lemma cell_da_map (f : V → W) (da : DataArray V) i p :
  cell (da_map f da) i p = f <$> cell da i p.
Proof.
  unfold cell, da_map. rewrite list_lookup_fmap.
  destruct (da !! i) as [[t r]|]; simpl; [|done].
  by rewrite list_lookup_fmap.
Qed.

Lemma cell_da_zip (f : U → V → W) (a : DataArray U) (b : DataArray V) i p :
  cell (da_zip f a b) i p = x ← cell a i p; y ← cell b i p; Some (f x y).
Proof.
  unfold cell, da_zip. rewrite lookup_zip_with.
  destruct (a !! i) as [[ta ra]|]; simpl; [|done].
  destruct (b !! i) as [[tb rb]|]; simpl.
  - rewrite lookup_zip_with. done.
  - by destruct (ra !! p).
Qed.

End cells.

Lemma cell_where (da : DataArray spec_float) (cond : DataArray bool) i p :
  cell (where_ da cond) i p =
  v ← cell da i p; c ← cell cond i p; Some (if c : bool then v else nan).
Proof. apply cell_da_zip. Qed.

Lemma cell_da_and (a b : DataArray bool) i p :
  cell (da_and a b) i p = x ← cell a i p; y ← cell b i p; Some (x && y).
Proof. apply cell_da_zip. Qed.

(** ** TemporalDiff *)

Lemma getitem_nonneg {A} (l : list A) (i : nat) x :
  l !! i = Some x → getitem l (Z.of_nat i) = Ok x.
Proof.
  intros Hi. pose proof (lookup_lt_Some _ _ _ Hi) as Hlt.
  unfold getitem.
  destruct (Z.ltb_spec (Z.of_nat i) 0) as [?|_]; [lia|].
  destruct (Z.ltb_spec (Z.of_nat i) 0) as [?|_]; [lia|].
  destruct (Z.leb_spec (Z.of_nat (length l)) (Z.of_nat i)) as [?|_]; [lia|].
  simpl. by rewrite Nat2Z.id, Hi.
Qed.

Lemma getitem_out_of_range {A} (l : list A) (i : Z) :
  i < - Z.of_nat (length l) ∨ Z.of_nat (length l) ≤ i → getitem l i = Raise IndexError.
Proof.
  intros Hi. unfold getitem.
  destruct (Z.ltb_spec i 0) as [Hneg|Hpos].
  - destruct (Z.ltb_spec (i + Z.of_nat (length l)) 0) as [?|?]; [done|lia].
  - destruct (Z.ltb_spec i 0) as [?|_]; [lia|].
    destruct (Z.leb_spec (Z.of_nat (length l)) i) as [?|?]; [done|lia].
Qed.

(** A negative position within [-n, -1] is read from the end. *)
Lemma getitem_negative {A} (l : list A) (i : Z) :
  - Z.of_nat (length l) ≤ i < 0 →
  getitem l i = getitem l (i + Z.of_nat (length l)) ∧ ∃ x, getitem l i = Ok x.
Proof.
  intros Hi. unfold getitem.
  destruct (Z.ltb_spec i 0) as [_|?]; [|lia].
  destruct (Z.ltb_spec (i + Z.of_nat (length l)) 0) as [?|_]; [lia|].
  destruct (Z.ltb_spec (i + Z.of_nat (length l)) 0) as [?|_]; [lia|].
  destruct (Z.leb_spec (Z.of_nat (length l)) (i + Z.of_nat (length l))) as [?|_]; [lia|].
  split; [done|].
  simpl. destruct (lookup_lt_is_Some_2 l (Z.to_nat (i + Z.of_nat (length l)))) as [x Hx]; [lia|].
    rewrite Hx. eauto.
Qed.

Lemma isel_year_out_of_range (m : list (Z * raster)) (i : Z) :
  i < - Z.of_nat (length m) ∨ Z.of_nat (length m) ≤ i → isel_year m i = Raise IndexError.
Proof. intros Hi. unfold isel_year. by rewrite getitem_out_of_range. Qed.

(** Indexing raises nothing but [IndexError]. *)
Lemma isel_year_raises (m : list (Z * raster)) (i : Z) e :
  isel_year m i = Raise e → e = IndexError.
Proof.
  unfold isel_year, getitem.
  destruct (_ || _); simpl; [congruence|].
  destruct (m !! _); simpl; congruence.
Qed.

(** With three composites or more the positions 0, 1 and 2 are read. *)
Lemma isel_year_nonneg (m : list (Z * raster)) (i : nat) :
  (i < length m)%nat → ∃ r, isel_year m (Z.of_nat i) = Ok r.
Proof.
  intros Hi. destruct (lookup_lt_is_Some_2 m i Hi) as [[y r] Hr].
  exists r. unfold isel_year. by rewrite (getitem_nonneg m i _ Hr).
Qed.

(** The three differences return as soon as there are three composites. *)
Lemma diffs_return (m : list (Z * raster)) :
  (3 ≤ length m)%nat →
  (∃ d, diff_18 m = Ok d) ∧ (∃ d, diff_19 m = Ok d) ∧ (∃ d, diff_1819 m = Ok d).
Proof.
  intros Hm.
  destruct (isel_year_nonneg m 0) as [c0 H0]; [lia|].
  destruct (isel_year_nonneg m 1) as [c1 H1]; [lia|].
  destruct (isel_year_nonneg m 2) as [c2 H2]; [lia|].
  change (Z.of_nat 0) with 0 in H0. change (Z.of_nat 1) with 1 in H1.
  change (Z.of_nat 2) with 2 in H2. unfold diff_18, diff_19, diff_1819.
  rewrite H0, H1, H2. simpl. repeat split; eexists; reflexivity.
Qed.

Lemma r_sub_lookup a b p x y :
  a !! p = Some x → b !! p = Some y → r_sub a b !! p = Some (Float.sub x y).
Proof. intros Ha Hb. unfold r_sub. by rewrite lookup_zip_with, Ha, Hb. Qed.

Lemma r_add_lookup a b p x y :
  a !! p = Some x → b !! p = Some y → r_add a b !! p = Some (Float.add x y).
Proof. intros Ha Hb. unfold r_add. by rewrite lookup_zip_with, Ha, Hb. Qed.

Lemma r_div_lookup a k p x :
  a !! p = Some x → r_div a k !! p = Some (Float.div x k).
Proof. intros Ha. unfold r_div. by rewrite list_lookup_fmap, Ha. Qed.

(** The notebook's statements are the general expressions at the year
    positions 0, 1 and 2. *)
Lemma diff_18_at m : diff_18 m = diff_at m 1 0.
Proof. reflexivity. Qed.

Lemma diff_19_at m : diff_19 m = diff_at m 2 0.
Proof. reflexivity. Qed.

Lemma diff_1819_at m : diff_1819 m = diff_avg_at m 2 1 0.
Proof. reflexivity. Qed.

(** Subtraction of two composites: NaN in either operand gives NaN. *)
Lemma diff_at_nan m i b ci cb p vi vb :
  isel_year m i = Ok ci → isel_year m b = Ok cb →
  ci !! p = Some vi → cb !! p = Some vb →
  isnull vi = true ∨ isnull vb = true →
  ∃ d, diff_at m i b = Ok d ∧ d !! p = Some nan.
Proof.
  intros Hi Hb Hpi Hpb Hnan. unfold diff_at. rewrite Hi, Hb. simpl.
  eexists; split; [done|].
  rewrite (r_sub_lookup _ _ _ _ _ Hpi Hpb). f_equal.
  destruct Hnan as [->%isnull_true | ->%isnull_true];
    [apply sub_nan_l | apply sub_nan_r].
Qed.

(** Mean of two composites minus a third: NaN in any operand gives NaN. *)
Lemma diff_avg_at_nan m i j b ci cj cb p vi vj vb :
  isel_year m i = Ok ci → isel_year m j = Ok cj → isel_year m b = Ok cb →
  ci !! p = Some vi → cj !! p = Some vj → cb !! p = Some vb →
  isnull vi = true ∨ isnull vj = true ∨ isnull vb = true →
  ∃ d, diff_avg_at m i j b = Ok d ∧ d !! p = Some nan.
Proof.
  intros Hi Hj Hb Hpi Hpj Hpb Hnan. unfold diff_avg_at. rewrite Hi, Hj, Hb. simpl.
  eexists; split; [done|].
  rewrite (r_sub_lookup _ _ _ _ vb (r_div_lookup _ _ _ _ (r_add_lookup _ _ _ _ _ Hpi Hpj)) Hpb).
  f_equal.
  destruct Hnan as [->%isnull_true | [->%isnull_true | ->%isnull_true]].
  - by rewrite add_nan_l, div_nan_l, sub_nan_l.
  - by rewrite add_nan_r, div_nan_l, sub_nan_l.
  - apply sub_nan_r.
Qed.

(** C2. TemporalDiff propagates "no observation": for the composites at
    year positions 0, 1 and 2 and every pixel, [diff_18] and [diff_19]
    (subtraction form) and [diff_1819], [diff_1819_vh_asc] (averaging
    form) return a raster whose value at the pixel is NaN as soon as one
    operand composite is NaN at that pixel. *)
Theorem temporal_diff_propagates_nan (m : list (Z * raster)) (c0 c1 c2 : raster) (p : nat) (v0 v1 v2 : spec_float) :
  isel_year m 0 = Ok c0 → isel_year m 1 = Ok c1 → isel_year m 2 = Ok c2 →
  c0 !! p = Some v0 → c1 !! p = Some v1 → c2 !! p = Some v2 →
  (isnull v1 = true ∨ isnull v0 = true →
     ∃ d, diff_18 m = Ok d ∧ d !! p = Some nan) ∧
  (isnull v2 = true ∨ isnull v0 = true →
     ∃ d, diff_19 m = Ok d ∧ d !! p = Some nan) ∧
  (isnull v2 = true ∨ isnull v1 = true ∨ isnull v0 = true →
     ∃ d, diff_1819 m = Ok d ∧ diff_1819_vh_asc m = Ok d ∧ d !! p = Some nan).
Proof.
  intros H0 H1 H2 Hp0 Hp1 Hp2. split; [|split]; intros Hnan.
  - rewrite diff_18_at. eauto using diff_at_nan.
  - rewrite diff_19_at. eauto using diff_at_nan.
  - unfold diff_1819_vh_asc. rewrite diff_1819_at.
    destruct (diff_avg_at_nan m 2 1 0 c2 c1 c0 p v2 v1 v0) as (d & Hd & Hdp); eauto.
Qed.

(** C7, as the code has it.  A year position outside [-n, n), [n] the
    number of composites, makes [mpspy[i,:,:]] raise [IndexError], and
    with it every difference that reads that position: no raster is
    returned.  A position in [-n, -1] is not an error: it is read from
    the end, as position [i + n]. *)
Theorem year_index_out_of_range (m : list (Z * raster)) (i : Z) :
  (i < - Z.of_nat (length m) ∨ Z.of_nat (length m) ≤ i →
     isel_year m i = Raise IndexError ∧
     (∀ j, diff_at m j i = Raise IndexError ∧ diff_at m i j = Raise IndexError) ∧
     (∀ j k, diff_avg_at m j k i = Raise IndexError)) ∧
  (- Z.of_nat (length m) ≤ i < 0 →
     isel_year m i = isel_year m (i + Z.of_nat (length m)) ∧
     ∃ r, isel_year m i = Ok r) ∧
  (Z.of_nat (length m) ≤ 1 → diff_18 m = Raise IndexError) ∧
  (Z.of_nat (length m) ≤ 2 → diff_19 m = Raise IndexError ∧ diff_1819 m = Raise IndexError).
Proof.
  split; [|split; [|split]].
  - intros Hi. pose proof (isel_year_out_of_range m i Hi) as E.
    split; [done|]. split.
    + intros j. unfold diff_at. rewrite E. split; [|done].
      destruct (isel_year m j) as [a|e] eqn:Ej; [done|].
      by rewrite (isel_year_raises m j e Ej).
    + intros j k. unfold diff_avg_at. rewrite E.
      destruct (isel_year m j) as [a|e] eqn:Ej;
        [|by rewrite (isel_year_raises m j e Ej)].
      destruct (isel_year m k) as [b|e] eqn:Ek; [done|].
      by rewrite (isel_year_raises m k e Ek).
  - intros Hi. unfold isel_year.
    destruct (getitem_negative m i Hi) as [E [x Hx]].
    split; [by rewrite E|]. rewrite Hx. simpl. eauto.
  - intros Hn. unfold diff_18. by rewrite isel_year_out_of_range by lia.
  - intros Hn. unfold diff_19, diff_1819.
    by rewrite isel_year_out_of_range by lia.
Qed.

(** ** Arrays computed from one array *)

Section map_time.
Context {U V W X : Type}.

Lemma da_map_map_time (f : V → W) (da : DataArray V) :
  da_map f da = da_map_time (λ _, f) da.
Proof. reflexivity. Qed.

Lemma da_time_cond_map_time (f : timestamp → bool) (da : DataArray V) :
  da_time_cond f da = da_map_time (λ t _, f t) da.
Proof. reflexivity. Qed.

Lemma da_zip_map_time (f : U → W → X) (g : timestamp → V → U) (h : timestamp → V → W) (da : DataArray V) :
  da_zip f (da_map_time g da) (da_map_time h da) = da_map_time (λ t v, f (g t v) (h t v)) da.
Proof.
  unfold da_zip, da_map_time.
  rewrite zip_with_fmap_l, zip_with_fmap_r, zip_with_diag.
  apply list_fmap_ext. intros i [t r] _. simpl. f_equal.
  by rewrite zip_with_fmap_l, zip_with_fmap_r, zip_with_diag.
Qed.

Lemma da_zip_self_map_time (f : V → W → X) (h : timestamp → V → W) (da : DataArray V) :
  da_zip f da (da_map_time h da) = da_map_time (λ t v, f v (h t v)) da.
Proof.
  unfold da_zip, da_map_time.
  rewrite zip_with_fmap_r, zip_with_diag.
  apply list_fmap_ext. intros i [t r] _. simpl. f_equal.
  by rewrite zip_with_fmap_r, zip_with_diag.
Qed.

Lemma times_da_map_time (g : timestamp → V → W) (da : DataArray V) :
  times (da_map_time g da) = times da.
Proof. unfold times, da_map_time. by rewrite <- list_fmap_compose. Qed.

Lemma npix_da_map_time (g : timestamp → V → W) (da : DataArray V) :
  npix (da_map_time g da) = npix da.
Proof. destruct da as [|[t r] da]; simpl; [done|]. apply length_fmap. Qed.

Lemma years_index_da_map_time (g : timestamp → V → W) (da : DataArray V) :
  years_index (da_map_time g da) = years_index da.
Proof. unfold years_index. by rewrite times_da_map_time. Qed.

Lemma group_year_da_map_time (g : timestamp → V → W) y (da : DataArray V) :
  group_year y (da_map_time g da) = da_map_time g (group_year y da).
Proof.
  unfold group_year, da_map_time.
  induction da as [|[t r] da IH]; simpl; [done|].
  destruct (bool_decide (year t = y)); simpl; [f_equal|]; apply IH.
Qed.

Lemma pixel_series_da_map_time (g : timestamp → V → W) p (da : DataArray V) :
  pixel_series p (da_map_time g da) =
  omap (λ s : timestamp * list V, g s.1 <$> s.2 !! p) da.
Proof.
  unfold pixel_series, da_map_time.
  induction da as [|[t r] da IH]; simpl; [done|].
  rewrite list_lookup_fmap. destruct (r !! p); simpl; [f_equal|]; apply IH.
Qed.

End map_time.

(** The masked merged optical series, cell by cell: the value when the
    month is a summer month and the value lies in [0, 1]; NaN otherwise. *)
Lemma s2_l8_ind_spy_map_time da :
  s2_l8_ind_spy da = da_map_time (λ t v, if in_range_jja t v then v else nan) da.
Proof.
  unfold s2_l8_ind_spy, where_, da_and.
  rewrite da_time_cond_map_time, !da_map_map_time, !da_zip_map_time.
  by rewrite da_zip_self_map_time.
Qed.

(** The masked SAR series of the aggregation cell. *)
Lemma where_season_map_time (da : DataArray spec_float) :
  where_ da (da_time_cond (λ t, bool_decide (time_season t = JJA)) da) =
  da_map_time (λ t v, if bool_decide (time_season t = JJA) then v else nan) da.
Proof.
  unfold where_. by rewrite da_time_cond_map_time, da_zip_self_map_time.
Qed.

(** ** The median that skips NaN *)

Lemma nanmedian_ext l l' :
  List.filter (λ v, negb (isnull v)) l = List.filter (λ v, negb (isnull v)) l' →
  nanmedian l = nanmedian l'.
Proof. intros E. unfold nanmedian. by rewrite E. Qed.

Lemma filter_all_nan l :
  Forall (λ v, isnull v = true) l → List.filter (λ v, negb (isnull v)) l = [].
Proof.
  induction 1 as [|v l Hv _ IH]; simpl; [done|]. by rewrite Hv.
Qed.

(** A pixel without a single valid value has the median NaN. *)
Lemma nanmedian_all_nan l : Forall (λ v, isnull v = true) l → nanmedian l = nan.
Proof. intros H. unfold nanmedian. by rewrite (filter_all_nan l H). Qed.

(** A NaN cell does not take part in the median. *)
Lemma nanmedian_skip_nan l1 l2 : nanmedian (l1 ++ nan :: l2) = nanmedian (l1 ++ l2).
Proof. apply nanmedian_ext. by rewrite !List.filter_app. Qed.

(** A single valid value is the median. *)
Lemma nanmedian_single l1 v l2 :
  isnull v = false →
  Forall (λ v, isnull v = true) l1 → Forall (λ v, isnull v = true) l2 →
  nanmedian (l1 ++ v :: l2) = v.
Proof.
  intros Hv H1 H2. unfold nanmedian.
  rewrite List.filter_app, (filter_all_nan l1 H1). simpl.
  by rewrite Hv, (filter_all_nan l2 H2).
Qed.

(** ** Sorted index of unique values *)

Lemma elem_of_insert_uniq {A} `{EqDecision A} (ltb : A → A → bool) x y l :
  y ∈ insert_uniq ltb x l ↔ y = x ∨ y ∈ l.
Proof.
  induction l as [|z l IH]; simpl.
  - apply elem_of_cons.
  - destruct (decide (x = z)) as [->|Hne]; [rewrite elem_of_cons; tauto|].
    destruct (ltb x z); [apply elem_of_cons|].
    rewrite !elem_of_cons, IH. tauto.
Qed.

Lemma elem_of_sort_uniq {A} `{EqDecision A} (ltb : A → A → bool) y l :
  y ∈ sort_uniq ltb l ↔ y ∈ l.
Proof.
  unfold sort_uniq. induction l as [|x l IH]; simpl; [done|].
  rewrite elem_of_insert_uniq, IH, elem_of_cons. tauto.
Qed.

Lemma insert_uniq_sorted x l :
  StronglySorted Z.lt l → StronglySorted Z.lt (insert_uniq Z.ltb x l).
Proof.
  induction 1 as [|z l Hs IH Hall]; simpl.
  - repeat constructor.
  - destruct (decide (x = z)) as [->|Hne]; [by constructor|].
    destruct (Z.ltb_spec x z) as [Hlt|Hge].
    + constructor; [by constructor|].
      constructor; [done|]. eapply Forall_impl; [exact Hall|]. simpl. lia.
    + constructor; [done|].
      apply Forall_forall. intros y Hy.
      apply elem_of_insert_uniq in Hy as [->|Hy]; [lia|].
      by eapply Forall_forall in Hall.
Qed.

Lemma sort_uniq_sorted l : StronglySorted Z.lt (sort_uniq Z.ltb l).
Proof.
  unfold sort_uniq. induction l as [|x l IH]; simpl; [constructor|].
  by apply insert_uniq_sorted.
Qed.

(** ** Grouping by year *)

Lemma sel_year_fmap (f : Z → raster) (l : list Z) y :
  y ∈ l → sel_year ((λ y, (y, f y)) <$> l) y = Some (f y).
Proof.
  induction l as [|z l IH]; simpl; [by intros ?%elem_of_nil|].
  intros Hy. destruct (decide (z = y)) as [->|Hne]; [done|].
  apply IH. by apply elem_of_cons in Hy as [->|Hy].
Qed.

Lemma groupby_years (da : DataArray spec_float) :
  (groupby_year_median da).*1 = years_index da.
Proof.
  unfold groupby_year_median. rewrite <- list_fmap_compose.
  apply list_fmap_id.
Qed.

Lemma median_time_lookup n g p :
  (p < n)%nat → median_time n g !! p = Some (nanmedian (pixel_series p g)).
Proof.
  intros Hp. unfold median_time.
  by rewrite list_lookup_fmap, lookup_seq_lt.
Qed.

Lemma median_time_length n g : length (median_time n g) = n.
Proof. unfold median_time. by rewrite length_fmap, length_seq. Qed.

(** The composite of a year that occurs in the time coordinate, for an
    array masked cell by cell. *)
Lemma groupby_map_time (g : timestamp → spec_float → spec_float) (da : DataArray spec_float) y :
  y ∈ year <$> times da →
  ∃ r, sel_year (groupby_year_median (da_map_time g da)) y = Some r ∧
       length r = npix da ∧
       ∀ p, (p < npix da)%nat →
         r !! p = Some (nanmedian (omap (λ s : timestamp * list spec_float, g s.1 <$> s.2 !! p) (group_year y da))).
Proof.
  intros Hy. unfold groupby_year_median.
  rewrite years_index_da_map_time, npix_da_map_time.
  rewrite (sel_year_fmap (λ y, median_time (npix da) (group_year y (da_map_time g da))))
    by by apply elem_of_sort_uniq.
  eexists; split; [done|]. split; [apply median_time_length|].
  intros p Hp. rewrite median_time_lookup by done.
  by rewrite group_year_da_map_time, pixel_series_da_map_time.
Qed.

(** ** SeasonalAggregator *)

Lemma elem_of_group_year {V} (y : Z) (da : DataArray V) s :
  s ∈ group_year y da ↔ s ∈ da ∧ year s.1 = y.
Proof.
  unfold group_year. rewrite !list_elem_of_In, List.filter_In.
  by rewrite bool_decide_eq_true.
Qed.

(** A masked series in which the pixel has no valid summer value in the
    year is NaN throughout the group of that year. *)
Lemma group_series_all_nan (g : timestamp → spec_float → spec_float) (da : DataArray spec_float) y p :
  (∀ t v, isnull v = true → isnull (g t v) = true) →
  (∀ t v, time_season t ≠ JJA → g t v = nan) →
  (∀ t s v, (t, s) ∈ da → year t = y → time_season t = JJA →
            s !! p = Some v → isnull v = true) →
  Forall (λ v, isnull v = true)
    (omap (λ s : timestamp * list spec_float, g s.1 <$> s.2 !! p) (group_year y da)).
Proof.
  intros Hnan Hout Hobs. apply Forall_forall. intros w Hw.
  apply list_elem_of_omap in Hw as ([t s] & Hin & Hf). simpl in Hf.
  apply elem_of_group_year in Hin as [Hin Hy]. simpl in Hy.
  apply fmap_Some in Hf as (v & Hv & ->).
  destruct (decide (time_season t = JJA)) as [Hs|Hs].
  - apply Hnan. eauto.
  - by rewrite Hout.
Qed.

Lemma seasonal_composite_all_nan (g : timestamp → spec_float → spec_float) (da : DataArray spec_float) y :
  (∀ t v, isnull v = true → isnull (g t v) = true) →
  (∀ t v, time_season t ≠ JJA → g t v = nan) →
  y ∈ year <$> times da →
  StronglySorted Z.lt (groupby_year_median (da_map_time g da)).*1 ∧
  ∃ r, sel_year (groupby_year_median (da_map_time g da)) y = Some r ∧
       length r = npix da ∧
       ∀ p, (p < npix da)%nat →
         (∀ t s v, (t, s) ∈ da → year t = y → time_season t = JJA →
                   s !! p = Some v → isnull v = true) →
         r !! p = Some nan.
Proof.
  intros Hnan Hout Hy. split.
  - rewrite groupby_years. apply sort_uniq_sorted.
  - destruct (groupby_map_time g da y Hy) as (r & Hr & Hlen & Hcell).
    exists r. split; [done|]. split; [done|].
    intros p Hp Hobs. rewrite (Hcell p Hp). f_equal.
    apply nanmedian_all_nan. by apply group_series_all_nan.
Qed.

Lemma in_range_jja_not_nan t v : in_range_jja t v = true → isnull v = false.
Proof.
  destruct v; try done. unfold in_range_jja.
  rewrite ge_nan_l, andb_false_r. done.
Qed.

(** C3. SeasonalAggregator on any series, optical ([mpspy]) and SAR
    ([mpspy_vh_asc]): the years of the composites ascend strictly; a year
    that occurs in the time coordinate has a composite, whatever its
    observations; and at a pixel whose summer observations of that year
    are all NaN the composite is NaN. *)
Theorem seasonal_median_of_empty_group (da : DataArray spec_float) (y : Z) :
  y ∈ year <$> times da →
  (StronglySorted Z.lt (mpspy da).*1 ∧
   ∃ r, sel_year (mpspy da) y = Some r ∧ length r = npix da ∧
        ∀ p, (p < npix da)%nat →
          (∀ t s v, (t, s) ∈ da → year t = y → time_season t = JJA →
                    s !! p = Some v → isnull v = true) →
          r !! p = Some nan) ∧
  (StronglySorted Z.lt (mpspy_vh_asc da).*1 ∧
   ∃ r, sel_year (mpspy_vh_asc da) y = Some r ∧ length r = npix da ∧
        ∀ p, (p < npix da)%nat →
          (∀ t s v, (t, s) ∈ da → year t = y → time_season t = JJA →
                    s !! p = Some v → isnull v = true) →
          r !! p = Some nan).
Proof.
  intros Hy. split.
  - unfold mpspy. rewrite s2_l8_ind_spy_map_time.
    apply seasonal_composite_all_nan; [| |done].
    + intros t v ->%isnull_true. by destruct (in_range_jja t nan).
    + intros t v Hs. unfold in_range_jja.
      by rewrite (bool_decide_eq_false_2 _ Hs).
  - unfold mpspy_vh_asc. rewrite where_season_map_time.
    apply seasonal_composite_all_nan; [| |done].
    + intros t v ->%isnull_true. by destruct (bool_decide _).
    + intros t v Hs. by rewrite (bool_decide_eq_false_2 _ Hs).
Qed.

(** ** Range filter of the optical pipeline *)

Lemma cell_s2_l8_ind_spy da i p t r v :
  da !! i = Some (t, r) → r !! p = Some v →
  cell (s2_l8_ind_spy da) i p = Some (if in_range_jja t v then v else nan).
Proof.
  intros Hi Hp. rewrite s2_l8_ind_spy_map_time.
  unfold cell, da_map_time. rewrite list_lookup_fmap, Hi. simpl.
  by rewrite list_lookup_fmap, Hp.
Qed.

Lemma kept_values_filter y p da :
  List.filter (λ v, negb (isnull v))
    (omap (λ s : timestamp * list spec_float,
             (λ v, if in_range_jja s.1 v then v else nan) <$> s.2 !! p)
          (group_year y da)) =
  List.filter (λ v, negb (isnull v)) (kept_values y p da).
Proof.
  unfold group_year, kept_values.
  induction da as [|[t s] da IH]; simpl; [done|].
  destruct (bool_decide (year t = y)); simpl.
  - destruct (s !! p) as [v|]; simpl; [|done].
    destruct (in_range_jja t v) eqn:Hr; simpl; [|done].
    rewrite (in_range_jja_not_nan t v Hr). simpl. by f_equal.
  - by destruct (s !! p).
Qed.

Lemma kept_values_in_range y p da :
  Forall (λ v, Float.ge v (Float.of_Z 0) = true ∧ Float.le v (Float.of_Z 1) = true)
         (kept_values y p da).
Proof.
  apply Forall_forall. intros v Hv.
  apply list_elem_of_omap in Hv as ([t s] & _ & Hf). simpl in Hf.
  destruct (s !! p) as [w|]; simpl in Hf; [|done].
  destruct (bool_decide (year t = y)); simpl in Hf; [|done].
  destruct (in_range_jja t w) eqn:Hr; [|done].
  injection Hf as <-. unfold in_range_jja in Hr.
  by apply andb_true_iff in Hr as [[_ ?]%andb_true_iff ?].
Qed.

(** C8. The optical pipeline filters the merged index by range before
    the seasonal median: a cell whose value is below 0 or above 1 is NaN
    in [s2_l8_ind_spy], whatever the quality mask said; a NaN cell does
    not take part in the median; and the composite of a year is, at each
    pixel, the median of the summer values of that year lying in [0, 1]
    and of nothing else. *)
Theorem optical_range_filter (da : DataArray spec_float) :
  (∀ i p v, cell da i p = Some v →
     Float.lt v (Float.of_Z 0) = true ∨ Float.gt v (Float.of_Z 1) = true →
     cell (s2_l8_ind_spy da) i p = Some nan) ∧
  (∀ l1 l2, nanmedian (l1 ++ nan :: l2) = nanmedian (l1 ++ l2)) ∧
  (∀ y, y ∈ year <$> times da →
     ∃ r, sel_year (mpspy da) y = Some r ∧
          ∀ p, (p < npix da)%nat →
            r !! p = Some (nanmedian (kept_values y p da)) ∧
            Forall (λ v, Float.lt v (Float.of_Z 0) = false ∧ Float.gt v (Float.of_Z 1) = false)
                   (kept_values y p da)).
Proof.
  split; [|split].
  - intros i p v Hc Hout. unfold cell in Hc.
    destruct (da !! i) as [[t r]|] eqn:Hi; simpl in Hc; [|done].
    rewrite (cell_s2_l8_ind_spy da i p t r v Hi Hc). f_equal.
    unfold in_range_jja.
    destruct Hout as [Hlt|Hgt].
    + by rewrite (lt_not_ge _ _ Hlt), andb_false_r.
    + by rewrite (gt_not_le _ _ Hgt), andb_false_r.
  - apply nanmedian_skip_nan.
  - intros y Hy. unfold mpspy. rewrite s2_l8_ind_spy_map_time.
    destruct (groupby_map_time (λ t v, if in_range_jja t v then v else nan) da y Hy)
      as (r & Hr & _ & Hcell).
    exists r. split; [done|]. intros p Hp. split.
    + rewrite (Hcell p Hp). f_equal. apply nanmedian_ext, kept_values_filter.
    + eapply Forall_impl; [apply kept_values_in_range|].
      intros v [Hge Hle]. split.
      * destruct (Float.lt v (Float.of_Z 0)) eqn:E; [|done].
        apply lt_not_ge in E. congruence.
      * destruct (Float.gt v (Float.of_Z 1)) eqn:E; [|done].
        apply gt_not_le in E. congruence.
Qed.

(** ** CrossSensorMerge *)

Lemma sel_time_Some {V} (da : DataArray V) t r :
  sel_time da t = Some r → (t, r) ∈ da.
Proof.
  induction da as [|[t' r'] da IH]; simpl; [done|].
  destruct (decide (t' = t)) as [->|Hne].
  - intros [= ->]. apply elem_of_cons. by left.
  - intros H. apply elem_of_cons. right. by apply IH.
Qed.

Lemma sel_time_fmap {V} (f : timestamp → list V) (idx : list timestamp) t :
  t ∈ idx → sel_time ((λ t, (t, f t)) <$> idx) t = Some (f t).
Proof.
  induction idx as [|t' idx IH]; simpl; [by intros ?%elem_of_nil|].
  intros Ht. destruct (decide (t' = t)) as [->|Hne]; [done|].
  apply IH. by apply elem_of_cons in Ht as [->|Ht].
Qed.

Lemma elem_of_index_union ia ib t :
  t ∈ index_union ia ib ↔ t ∈ ia ∨ t ∈ ib.
Proof.
  unfold index_union.
  destruct (decide (ia = ib)) as [->|_]; [tauto|].
  destruct (decide (ib = [])) as [->|_].
  { rewrite elem_of_nil. tauto. }
  destruct (decide (ia = [])) as [->|_].
  { rewrite elem_of_nil. tauto. }
  by rewrite elem_of_sort_uniq, elem_of_app.
Qed.

Lemma fillna_reindex n idx a b :
  fillna (reindex_time n idx a) (reindex_time n idx b) =
  (λ t, (t, zip_with (λ x y, if isnull x then y else x)
                     (default (replicate n nan) (sel_time a t))
                     (default (replicate n nan) (sel_time b t)))) <$> idx.
Proof.
  unfold fillna, da_zip, reindex_time.
  by rewrite zip_with_fmap_l, zip_with_fmap_r, zip_with_diag.
Qed.

Lemma fill_from_nan n r :
  length r = n → zip_with (λ x y, if isnull x then y else x) (replicate n nan) r = r.
Proof.
  intros <-. induction r as [|x r IH]; simpl; [done|]. by rewrite IH.
Qed.

Lemma fill_with_nan n r :
  length r = n → zip_with (λ x y, if isnull x then y else x) r (replicate n nan) = r.
Proof.
  intros <-. induction r as [|x r IH]; simpl; [done|]. rewrite IH.
  by destruct x.
Qed.

Lemma npix_app_shape {V} n (a b : DataArray V) s :
  shape_yx n a → shape_yx n b → s ∈ a ++ b → npix (a ++ b) = n ∧ length s.2 = n.
Proof.
  intros Ha Hb Hs.
  assert (Hab : Forall (λ s : timestamp * list V, length s.2 = n) (a ++ b)).
  { by apply Forall_app. }
  split; [|by eapply Forall_forall in Hab].
  destruct (a ++ b) as [|s0 l]; [by apply elem_of_nil in Hs|].
  simpl. by apply Forall_cons_1 in Hab as [? _].
Qed.

(** The slice of the merged series at a label of either input. *)
Lemma sel_time_combine_first a b t :
  t ∈ times a ∨ t ∈ times b →
  sel_time (combine_first a b) t =
  Some (zip_with (λ x y, if isnull x then y else x)
          (default (replicate (npix (a ++ b)) nan) (sel_time a t))
          (default (replicate (npix (a ++ b)) nan) (sel_time b t))).
Proof.
  intros Ht. unfold combine_first. simpl. rewrite fillna_reindex.
  rewrite (sel_time_fmap (λ t, zip_with _ _ _)); [done|].
  by apply elem_of_index_union.
Qed.

Lemma elem_of_times {V} (da : DataArray V) t r : (t, r) ∈ da → t ∈ times da.
Proof. intros H. unfold times. apply list_elem_of_fmap. by exists (t, r). Qed.


(** ** IndexCompute *)

Lemma normalized_difference_zero a b :
  Float.eq a (Float.of_Z 0) = true → Float.eq b (Float.of_Z 0) = true →
  normalized_difference a b = nan.
Proof. intros [sa ->]%eq_zero [sb ->]%eq_zero. by destruct sa, sb. Qed.

Lemma ratio_zero a b :
  Float.eq a (Float.of_Z 0) = true → Float.eq b (Float.of_Z 0) = true →
  ratio a b = nan.
Proof. by intros [sa ->]%eq_zero [sb ->]%eq_zero. Qed.

Lemma kernel_normalized_difference_zero kernel a b :
  kernel nan = nan →
  Float.eq a (Float.of_Z 0) = true → Float.eq b (Float.of_Z 0) = true →
  kernel_normalized_difference kernel a b = nan.
Proof.
  intros Hk Ha Hb. unfold kernel_normalized_difference.
  by rewrite normalized_difference_zero.
Qed.

(** The datasets that [optical] leaves behind: the passed one with the
    two index variables added when [inplace] is set, untouched
    otherwise; the returned one always has them. *)
Lemma optical_ndvi_kndvi kernel (ds : gmap string (DataArray spec_float)) nir red inplace :
  ds !! "nir" = Some nir → ds !! "red" = Some red →
  optical kernel ds ["NDVI"; "kNDVI"] inplace =
  let out := <["kNDVI" := da_zip (kernel_normalized_difference kernel) nir red]>
             (<["NDVI" := da_zip normalized_difference nir red]> ds) in
  Ok (if inplace then out else ds, out).
Proof.
  intros Hnir Hred. unfold optical, add_optical_indices, getattr.
  change (optical_index kernel "NDVI") with (Ok (A:=spec_float → spec_float → spec_float) normalized_difference).
  change (optical_index kernel "kNDVI") with (Ok (kernel_normalized_difference kernel)).
  simpl. rewrite Hnir, Hred. simpl.
  rewrite !lookup_insert_ne by done. rewrite Hnir, Hred. done.
Qed.

(** C6.  With both input bands zero at a pixel-timestamp, each index
    variant of the spec is NaN there: the normalized difference and the
    ratio by float division of zero by zero, the kernelized variant for
    a kernel that maps NaN to NaN.  The computation raises nothing: the
    call of [optical] returns, and the cells of [NDVI] and [kNDVI] at
    such a pixel-timestamp are NaN.  NaN is the marker that the median of
    the aggregator skips. *)
Theorem index_of_zero_bands_is_nan (kernel : spec_float → spec_float) :
  (∀ a b, Float.eq a (Float.of_Z 0) = true → Float.eq b (Float.of_Z 0) = true →
     normalized_difference a b = nan ∧ ratio a b = nan ∧
     (kernel nan = nan → kernel_normalized_difference kernel a b = nan)) ∧
  (∀ (ds : gmap string (DataArray spec_float)) nir red,
     ds !! "nir" = Some nir → ds !! "red" = Some red →
     ∃ out ndvi kndvi,
       optical kernel ds ["NDVI"; "kNDVI"] true = Ok (out, out) ∧
       out !! "NDVI" = Some ndvi ∧ out !! "kNDVI" = Some kndvi ∧
       ∀ i p x y, cell nir i p = Some x → cell red i p = Some y →
         Float.eq x (Float.of_Z 0) = true → Float.eq y (Float.of_Z 0) = true →
         cell ndvi i p = Some nan ∧
         (kernel nan = nan → cell kndvi i p = Some nan)) ∧
  (isnull nan = true ∧
   ∀ l1 l2, nanmedian (l1 ++ nan :: l2) = nanmedian (l1 ++ l2)).
Proof.
  split; [|split].
  - intros a b Ha Hb. split; [by apply normalized_difference_zero|].
    split; [by apply ratio_zero|].
    intros Hk. by apply kernel_normalized_difference_zero.
  - intros ds nir red Hnir Hred.
    rewrite (optical_ndvi_kndvi kernel ds nir red true Hnir Hred). simpl.
    do 3 eexists. split; [done|].
    split; [by rewrite lookup_insert_ne, lookup_insert_eq|].
    split; [by rewrite lookup_insert_eq|].
    intros i p x y Hx Hy Hx0 Hy0. rewrite !cell_da_zip, Hx, Hy. simpl.
    split; [by rewrite normalized_difference_zero|].
    intros Hk. by rewrite kernel_normalized_difference_zero.
  - split; [done|apply nanmedian_skip_nan].
Qed.

(** ** SAR filter *)

(** C9.  In the SAR pipeline the cell of the filtered VVVH series is the
    VVVH value when the VH value of the same pixel-timestamp differs
    from the nodata value and lies between the 0.05 and the 0.95
    quantile of the VH array, both ends included, and NaN otherwise; the
    condition reads VH alone, for [vvvh_asc] as for [vh_asc]. *)
Theorem vvvh_mask_reads_vh (quantile : DataArray spec_float → spec_float → spec_float) (nodata : spec_float) (VH VVVH : DataArray spec_float) (i p : nat) (vh vv : spec_float) :
  cell VH i p = Some vh → cell VVVH i p = Some vv →
  cell (sar_mask quantile nodata VH) i p =
    Some (Float.ne vh nodata && Float.ge vh (quantile VH q05) && Float.le vh (quantile VH q95)) ∧
  cell (vvvh_asc quantile nodata VH VVVH) i p =
    Some (if Float.ne vh nodata && Float.ge vh (quantile VH q05) && Float.le vh (quantile VH q95)
          then vv else nan) ∧
  cell (vh_asc quantile nodata VH) i p =
    Some (if Float.ne vh nodata && Float.ge vh (quantile VH q05) && Float.le vh (quantile VH q95)
          then vh else nan).
Proof.
  intros Hvh Hvv.
  assert (Hm : cell (sar_mask quantile nodata VH) i p =
    Some (Float.ne vh nodata && Float.ge vh (quantile VH q05) && Float.le vh (quantile VH q95))).
  { unfold sar_mask. rewrite !cell_da_and, !cell_da_map, Hvh. done. }
  split; [done|]. unfold vvvh_asc, vh_asc.
  by rewrite !cell_where, Hm, Hvh, Hvv.
Qed.

(** ** Observations per pixel *)

Lemma sum_from_lookup n (m : DataArray bool) p :
  shape_yx n m → (p < n)%nat →
  foldr (λ (s : timestamp * list bool) acc, zip_with Z.add (Z.b2z <$> s.2) acc)
        (replicate n 0) m !! p =
  Some (Z.of_nat (length (List.filter (λ s : timestamp * list bool, default false (s.2 !! p)) m))).
Proof.
  intros Hshape Hp. induction Hshape as [|[t r] m Hr _ IH]; simpl.
  - by rewrite lookup_replicate_2.
  - simpl in Hr. rewrite lookup_zip_with, list_lookup_fmap, IH.
    destruct (lookup_lt_is_Some_2 r p) as [c Hc]; [lia|].
    rewrite Hc. simpl. f_equal. destruct c; simpl; lia.
Qed.

Lemma shape_yx_da_map {V W} (f : V → W) n (da : DataArray V) :
  shape_yx n da → shape_yx n (da_map f da).
Proof.
  unfold shape_yx, da_map. rewrite Forall_fmap. intros H.
  eapply Forall_impl; [exact H|]. intros [t r]. simpl. by rewrite length_fmap.
Qed.

Lemma filter_da_map {V W} (f : V → W) (g : W → bool) p (da : DataArray V) :
  length (List.filter (λ s : timestamp * list W, from_option g false (s.2 !! p)) (da_map f da)) =
  length (List.filter (λ s : timestamp * list V, from_option (λ v, g (f v)) false (s.2 !! p)) da).
Proof.
  induction da as [|[t r] da IH]; simpl; [done|].
  rewrite list_lookup_fmap. destruct (r !! p) as [v|]; simpl; [|done].
  destruct (g (f v)); simpl; by rewrite IH.
Qed.

(** C10.  The observation count of a pixel is the number of time steps
    whose VH value is strictly greater than the nodata value; a value
    equal to or below the nodata value, and a NaN, are not counted. *)
Theorem count_is_strictly_above_nodata (nodata : spec_float) (VH : DataArray spec_float) (p : nat) :
  shape_yx (npix VH) VH → (p < npix VH)%nat →
  count nodata VH !! p =
    Some (Z.of_nat (length (List.filter
            (λ s : timestamp * list spec_float,
               from_option (λ v, Float.gt v nodata) false (s.2 !! p)) VH))) ∧
  (∀ v, Float.le v nodata = true → Float.gt v nodata = false) ∧
  Float.gt nan nodata = false.
Proof.
  intros Hshape Hp. split; [|split].
  - unfold count, xr_where_bool, sum_time. rewrite !da_map_map_time, !npix_da_map_time.
    rewrite <- !da_map_map_time.
    rewrite sum_from_lookup by (done || by do 2 apply shape_yx_da_map).
    f_equal. f_equal.
    change (λ s : timestamp * list bool, default false (s.2 !! p))
      with (λ s : timestamp * list bool, from_option (λ c : bool, c) false (s.2 !! p)).
    rewrite !filter_da_map.
    f_equal. apply List.filter_ext. intros [t r]. simpl.
    destruct (r !! p) as [v|]; simpl; [|done]. by destruct (Float.gt v nodata).
  - intros v. apply le_not_gt.
  - apply gt_nan_l.
Qed.

(** ** QualityMask *)

(** Bitwise reasoning: an equation between words is read bit by bit. *)
Lemma land_bit a b c n : Z.land a b = c → Z.testbit a n && Z.testbit b n = Z.testbit c n.
Proof. intros <-. by rewrite Z.land_spec. Qed.

Ltac bitwise n :=
  repeat match goal with
  | H : Z.land _ _ = _ |- _ => apply (λ H', land_bit _ _ _ n H') in H
  end;
  rewrite ?Z.land_spec, ?Z.lor_spec, ?Z.bits_0 in *;
  repeat match goal with
  | |- context [Z.testbit ?x n] => destruct (Z.testbit x n)
  | H : context [Z.testbit ?x n] |- _ => destruct (Z.testbit x n)
  end;
  simpl in *; congruence.

(** Two disjoint fields are compared independently. *)
Lemma land_lor_split v mask F value P :
  Z.land mask F = 0 → Z.land value mask = value → Z.land P F = P →
  (Z.land v (Z.lor mask F) =? Z.lor value P) = (Z.land v mask =? value) && (Z.land v F =? P).
Proof.
  intros Hd Hv HP. apply Bool.eq_iff_eq_true.
  rewrite andb_true_iff, !Z.eqb_eq. split.
  - intros H. split; apply Z.bits_inj'; intros n _; bitwise n.
  - intros [H1 H2]. apply Z.bits_inj'; intros n _; bitwise n.
Qed.

Lemma land_lor_subset mask F value P :
  Z.land value mask = value → Z.land P F = P →
  Z.land (Z.lor value P) (Z.lor mask F) = Z.lor value P.
Proof. intros Hv HP. apply Z.bits_inj'; intros n _; bitwise n. Qed.

Lemma land_lor_disjoint q mask F :
  Z.land q mask = 0 → Z.land F q = 0 → Z.land q (Z.lor mask F) = 0.
Proof. intros H1 H2. apply Z.bits_inj'; intros n _; bitwise n. Qed.

Lemma foldl_set_value_bit mask bs :
  foldl (λ m bit, set_value_bit m bit true) mask bs = Z.lor mask (field_mask (Bits bs)).
Proof.
  revert mask. induction bs as [|b bs IH]; intros mask; simpl.
  - by rewrite Z.lor_0_r.
  - rewrite IH. unfold set_value_bit. simpl. symmetry. apply Z.lor_assoc.
Qed.

(** One step of the loop of [create_mask_value] joins the field of the
    flag to the mask and its required pattern to the value. *)
Lemma create_mask_value_step bits_def name ref rest defn fv mask value :
  bits_def !! name = Some defn → flag_value defn ref = Ok fv →
  predicate_known bits_def (name, ref) = true →
  Z.land (field_mask (bits defn)) mask = 0 → Z.land value mask = value →
  create_mask_value_from bits_def ((name, ref) :: rest) mask value =
  create_mask_value_from bits_def rest
    (Z.lor mask (field_mask (bits defn))) (Z.lor value (field_pattern (bits defn) fv)).
Proof.
  intros Hdef Hfv Hknown Hdisj Hsub. simpl. rewrite Hdef, Hfv. simpl.
  unfold predicate_known in Hknown. simpl in Hknown. rewrite Hdef, Hfv in Hknown.
  destruct (bits defn) as [bit|[|b0 bs]] eqn:Hbits; [|done|].
  - f_equal. unfold set_value_bit, field_pattern.
    destruct (fv =? 0); simpl; [|done].
    rewrite Z.lor_0_r. apply Z.bits_inj'; intros n Hn.
    rewrite Z.land_spec, Z.lnot_spec by done. simpl in Hdisj.
    apply (land_bit _ _ _ n) in Hdisj, Hsub. rewrite Z.bits_0 in Hdisj.
    destruct (Z.testbit value n), (Z.testbit mask n), (Z.testbit (Z.shiftl 1 bit) n);
      simpl in *; congruence.
  - by rewrite foldl_set_value_bit.
Qed.

Lemma required_field_defn bits_def name ref defn :
  bits_def !! name = Some defn → required_field bits_def (name, ref) = field_mask (bits defn).
Proof. intros H. unfold required_field. simpl. by rewrite H. Qed.

(** The loop of [create_mask_value], started from a mask that the fields
    of the remaining flags do not meet: the final comparison is the
    initial one together with all the predicates. *)
Lemma create_mask_value_from_correct bits_def flags :
  ∀ mask value,
  well_formed bits_def flags = true →
  forallb (predicate_known bits_def) flags = true →
  forallb (λ q, Z.land (required_field bits_def q) mask =? 0) flags = true →
  Z.land value mask = value →
  ∃ mask' value',
    create_mask_value_from bits_def flags mask value = Ok (mask', value') ∧
    ∀ v, (Z.land v mask' =? value') =
         (Z.land v mask =? value) && forallb (predicate_holds bits_def v) flags.
Proof.
  induction flags as [|[name ref] rest IH]; intros mask value Hwf Hknown Hfree Hsub.
  - exists mask, value. split; [done|]. intros v. simpl. by rewrite andb_true_r.
  - unfold well_formed in Hwf. simpl in Hwf, Hknown, Hfree.
    apply andb_true_iff in Hwf as [[Hfit Hfits]%andb_true_iff [Hdisj Hdisjs]%andb_true_iff].
    apply andb_true_iff in Hknown as [Hk Hknown].
    apply andb_true_iff in Hfree as [Hf Hfree].
    pose proof Hk as Hk'. unfold predicate_known in Hk'. simpl in Hk'.
    destruct (bits_def !! name) as [defn|] eqn:Hdef; [|done].
    destruct (flag_value defn ref) as [fv|] eqn:Hfv; [|done].
    rewrite (required_field_defn _ _ _ _ Hdef) in Hf. apply Z.eqb_eq in Hf.
    unfold fits in Hfit. rewrite Hfv in Hfit.
    apply andb_true_iff in Hfit as [_ HP%Z.eqb_eq].
    rewrite (create_mask_value_step _ _ _ _ _ _ _ _ Hdef Hfv Hk Hf Hsub).
    destruct (IH (Z.lor mask (field_mask (bits defn)))
                 (Z.lor value (field_pattern (bits defn) fv)))
      as (mask' & value' & Hrun & Hcmp).
    + unfold well_formed. by rewrite Hfits, Hdisjs.
    + done.
    + apply forallb_forall. intros q Hq.
      rewrite forallb_forall in Hfree, Hdisj.
      specialize (Hfree q Hq). specialize (Hdisj q Hq).
      rewrite (required_field_defn _ _ _ _ Hdef) in Hdisj.
      apply Z.eqb_eq in Hfree, Hdisj. apply Z.eqb_eq.
      by apply land_lor_disjoint.
    + by apply land_lor_subset.
    + exists mask', value'. split; [done|]. intros v.
      rewrite Hcmp, land_lor_split by (done || by rewrite Z.land_comm).
      unfold predicate_holds at 2. simpl. rewrite Hdef, Hfv.
      by rewrite andb_assoc.
Qed.


(** ** Frame: what a stage leaves as it was *)

Ltac inv_bind H :=
  repeat match type of H with
  | bind ?r _ = Ok _ =>
    let E := fresh "E" in destruct r eqn:E; simpl in H; [|discriminate H]
  end;
  injection H as <-.

Lemma stage_mask_frame bits_def ns ns' name :
  stage_mask bits_def ns = Ok ns' →
  name ≠ "mask_s2" → name ≠ "mask_l8" → name ≠ "s2" → name ≠ "l8" →
  ns' !! name = ns !! name.
Proof.
  intros H ? ? ? ?. unfold stage_mask in H. inv_bind H.
  by rewrite !lookup_insert_ne.
Qed.

Lemma stage_merge_frame ns ns' name :
  stage_merge ns = Ok ns' →
  name ≠ "s2_ind" → name ≠ "l8_ind" → name ≠ "s2_l8_ind" →
  ns' !! name = ns !! name.
Proof.
  intros H ? ? ?. unfold stage_merge in H. inv_bind H.
  by rewrite !lookup_insert_ne.
Qed.

Lemma stage_aggregate_frame ns ns' name :
  stage_aggregate ns = Ok ns' →
  name ≠ "s2_l8_ind_spy" → name ≠ "mpspy" →
  ns' !! name = ns !! name.
Proof.
  intros H ? ?. unfold stage_aggregate in H. inv_bind H.
  by rewrite !lookup_insert_ne.
Qed.

Lemma stage_diff_frame ns ns' name :
  stage_diff ns = Ok ns' →
  name ≠ "diff_18" → name ≠ "diff_19" → name ≠ "diff_1819" →
  ns' !! name = ns !! name.
Proof.
  intros H ? ? ?. unfold stage_diff in H. inv_bind H.
  by rewrite !lookup_insert_ne.
Qed.

(** The variables of a dataset after the index variables were added:
    those it had, and the index variables. *)
Lemma add_optical_indices_vars kernel index :
  ∀ ds out, add_optical_indices kernel index ds = Ok out →
  (∀ band, band ∉ index → out !! band = ds !! band) ∧
  (∀ band, band ∈ index → is_Some (out !! band)) ∧
  (∀ band, is_Some (ds !! band) → is_Some (out !! band)).
Proof.
  induction index as [|name rest IH]; intros ds out H; simpl in H.
  - injection H as <-. split; [done|]. split; [|done].
    by intros band ?%elem_of_nil.
  - destruct (optical_index kernel name) as [f|]; simpl in H; [|done].
    destruct (getattr ds "nir") as [nir|]; simpl in H; [|done].
    destruct (getattr ds "red") as [red|]; simpl in H; [|done].
    destruct (IH _ _ H) as (Hother & Hnew & Hold).
    assert (Hname : is_Some (out !! name)).
    { apply Hold. rewrite lookup_insert_eq. eauto. }
    split; [|split].
    + intros band Hband. apply not_elem_of_cons in Hband as [Hne Hband].
      rewrite (Hother band Hband). by rewrite lookup_insert_ne.
    + intros band [->|Hband]%elem_of_cons; [done|]. by apply Hnew.
    + intros band Hband. apply Hold.
      destruct (decide (name = band)) as [->|Hne].
      * rewrite lookup_insert_eq. eauto.
      * by rewrite lookup_insert_ne.
Qed.

(** With [inplace=True] the dataset that was passed is the returned one:
    it has the index variables, and its other variables are unchanged.
    Without, the passed dataset is unchanged. *)
Lemma optical_inplace kernel ds index inplace post ret :
  optical kernel ds index inplace = Ok (post, ret) →
  post = (if inplace then ret else ds) ∧
  (∀ band, band ∉ index → ret !! band = ds !! band) ∧
  (∀ band, band ∈ index → is_Some (ret !! band)).
Proof.
  unfold optical. intros H.
  destruct (add_optical_indices kernel index ds) as [out|] eqn:E; simpl in H; [|done].
  injection H as <- <-. split; [done|].
  destruct (add_optical_indices_vars kernel index ds out E) as (? & ? & _). done.
Qed.

(** [bandindices.sar] is called with [inplace=True] as well: the loaded
    SAR dataset gets the ratio variables, its bands are unchanged. *)
Lemma sar_inplace ds index inplace post ret :
  sar ds index inplace = Ok (post, ret) →
  post = (if inplace then ret else ds) ∧
  (∀ band, band ∉ index → ret !! band = ds !! band).
Proof.
  unfold sar. intros H.
  destruct (add_sar_indices index ds) as [out|] eqn:E; simpl in H; [|done].
  injection H as <- <-. split; [done|].
  revert ds E. induction index as [|name rest IH]; intros ds E band Hband; simpl in E.
  - by injection E as <-.
  - destruct (sar_index name) as [[b1 b2]|]; simpl in E; [|done].
    destruct (getattr ds b1) as [a|]; simpl in E; [|done].
    destruct (getattr ds b2) as [b|]; simpl in E; [|done].
    apply not_elem_of_cons in Hband as [Hne Hband].
    rewrite (IH _ E band Hband). by rewrite lookup_insert_ne.
Qed.

Lemma stage_index_frame kernel ns ns' :
  stage_index kernel ns = Ok ns' →
  (∀ name, name ≠ "s2" → name ≠ "l8" → ns' !! name = ns !! name) ∧
  ∀ name, name = "s2" ∨ name = "l8" →
    ∃ ds ds', ns !! name = Some (VDataset ds) ∧ ns' !! name = Some (VDataset ds') ∧
              (∀ band, band ≠ "NDVI" → band ≠ "kNDVI" → ds' !! band = ds !! band) ∧
              is_Some (ds' !! "NDVI") ∧ is_Some (ds' !! "kNDVI").
Proof.
  intros H. unfold stage_index in H.
  destruct (get_dataset ns "s2") as [s2|] eqn:Es2; simpl in H; [|done].
  destruct (optical kernel s2 ["NDVI"; "kNDVI"] true) as [[p2 r2]|] eqn:E2;
    simpl in H; [|done].
  destruct (get_dataset (<["s2":=VDataset p2]> ns) "l8") as [l8|] eqn:El8;
    simpl in H; [|done].
  destruct (optical kernel l8 ["NDVI"; "kNDVI"] true) as [[p8 r8]|] eqn:E8;
    simpl in H; [|done].
  injection H as <-.
  apply optical_inplace in E2 as (-> & Hk2 & Hn2).
  apply optical_inplace in E8 as (-> & Hk8 & Hn8).
  unfold get_dataset in Es2, El8. rewrite lookup_insert_ne in El8 by done.
  destruct (ns !! "s2") as [[]|] eqn:Hs2; try done. injection Es2 as ->.
  destruct (ns !! "l8") as [[]|] eqn:Hl8; try done. injection El8 as ->.
  assert (Hnot : ∀ band : string, band ≠ "NDVI" → band ≠ "kNDVI" → band ∉ ["NDVI"; "kNDVI"]).
  { intros band ? ? [->|[->|[]%elem_of_nil]%elem_of_cons]%elem_of_cons; done. }
  split.
  - intros name ? ?. by rewrite !lookup_insert_ne.
  - intros name [->| ->].
    + exists s2, r2. rewrite lookup_insert_ne, lookup_insert_eq by done.
      split; [done|]. split; [done|]. split; [by auto|].
      split; apply Hn2; rewrite !elem_of_cons; tauto.
    + exists l8, r8. rewrite lookup_insert_eq.
      split; [done|]. split; [done|]. split; [by auto|].
      split; apply Hn8; rewrite !elem_of_cons; tauto.
Qed.


(** * The theorems on the sample inputs *)

Lemma shape_sample_s2_ind : shape_yx 2 sample_s2_ind.
Proof. repeat constructor. Qed.

Lemma shape_sample_l8_ind : shape_yx 2 sample_l8_ind.
Proof. repeat constructor. Qed.



(** C2 on the sample composites, whose 2019 composite is NaN. *)
Lemma temporal_diff_propagates_nan_witness :
  (∃ d, diff_19 sample_composites = Ok d ∧ d !! 0%nat = Some nan) ∧
  (∃ d, diff_1819 sample_composites = Ok d ∧ diff_1819_vh_asc sample_composites = Ok d ∧
        d !! 0%nat = Some nan).
Proof.
  destruct (temporal_diff_propagates_nan sample_composites
              [half] [Float.of_Z 1] [nan] 0 half (Float.of_Z 1) nan)
    as (_ & H19 & H1819); try reflexivity.
  split.
  - apply H19. left. reflexivity.
  - apply H1819. left. reflexivity.
Defined.

(** C7 on the sample composites: position 3 and position -4 raise. *)
Lemma year_index_out_of_range_witness :
  isel_year sample_composites 3 = Raise IndexError ∧
  isel_year sample_composites (-4) = Raise IndexError ∧
  diff_at sample_composites 1 3 = Raise IndexError ∧
  (∃ r, isel_year sample_composites (-1) = Ok r).
Proof.
  destruct (year_index_out_of_range sample_composites 3) as (Hhigh & _).
  destruct (year_index_out_of_range sample_composites (-4)) as (Hlow & _).
  destruct (year_index_out_of_range sample_composites (-1)) as (_ & Hwrap & _).
  split; [apply Hhigh; simpl; lia|].
  split; [apply Hlow; simpl; lia|].
  split; [apply Hhigh; simpl; lia|].
  apply Hwrap; simpl; lia.
Defined.

(** C7 as stated fails for a negative position: -3 is no position of a
    sequence of three composites, yet no error is raised,
    [mpspy[-3,:,:]] is the first composite and the difference against it
    is [diff_18]. *)
Lemma negative_year_index_counterexample :
  isel_year sample_composites (-3) = Ok [half] ∧
  diff_at sample_composites 1 (-3) = Ok [half] ∧
  diff_at sample_composites 1 (-3) = diff_18 sample_composites.
Proof. split; [reflexivity|]. split; reflexivity. Qed.

Lemma elem_of_years_sample_merged : 2019 ∈ year <$> times sample_merged.
Proof. apply list_elem_of_In. vm_compute. tauto. Qed.

(** C3 on the merged sample: 2019 has a January scene only, so both
    pixels of its composite are NaN, and the composite is there. *)
Lemma seasonal_median_of_empty_group_witness :
  (mpspy sample_merged).*1 = [2017; 2018; 2019] ∧
  ∃ r, sel_year (mpspy sample_merged) 2019 = Some r ∧
       r !! 0%nat = Some nan ∧ r !! 1%nat = Some nan.
Proof.
  destruct (seasonal_median_of_empty_group sample_merged 2019 elem_of_years_sample_merged)
    as ((_ & r & Hr & _ & Hcell) & _).
  split; [reflexivity|].
  assert (Hno : ∀ p t s v, (t, s) ∈ sample_merged → year t = 2019 →
            time_season t = JJA → s !! p = Some v → isnull v = true).
  { intros p t s v Hin Hy Hs _. apply list_elem_of_In in Hin. vm_compute in Hin.
    repeat (destruct Hin as [Hin|Hin]; [injection Hin as <- <-; discriminate|]).
    destruct Hin. }
  exists r. split; [exact Hr|]. split.
  - apply Hcell; [vm_compute; lia|]. apply Hno.
  - apply Hcell; [vm_compute; lia|]. apply Hno.
Defined.




(** C6 on the zeros of either sign, for the three index variants. *)
Lemma index_of_zero_bands_is_nan_witness :
  normalized_difference (S754_zero false) (S754_zero true) = nan ∧
  ratio (S754_zero true) (S754_zero false) = nan ∧
  kernel_normalized_difference sample_kernel (Float.of_Z 0) (Float.of_Z 0) = nan.
Proof.
  destruct (index_of_zero_bands_is_nan sample_kernel) as (Hcell & _ & _).
  destruct (Hcell (S754_zero false) (S754_zero true)) as (Hnd & _ & _);
    [reflexivity|reflexivity|].
  destruct (Hcell (S754_zero true) (S754_zero false)) as (_ & Hratio & _);
    [reflexivity|reflexivity|].
  destruct (Hcell (Float.of_Z 0) (Float.of_Z 0)) as (_ & _ & Hk);
    [reflexivity|reflexivity|].
  split; [exact Hnd|]. split; [exact Hratio|]. apply Hk. reflexivity.
Defined.

Lemma elem_of_years_sample_l8_ind : 2018 ∈ year <$> times sample_l8_ind.
Proof. apply list_elem_of_In. vm_compute. tauto. Qed.

(** C8 on the secondary sample series: the value 2 of pixel 1 on July
    1st, 2018 is dropped, and the 2018 composite of the pixel is the
    median of the one remaining summer value, 0.5. *)
Lemma optical_range_filter_witness :
  cell (s2_l8_ind_spy sample_l8_ind) 1 1 = Some nan ∧
  ∃ r, sel_year (mpspy sample_l8_ind) 2018 = Some r ∧ r !! 1%nat = Some half.
Proof.
  destruct (optical_range_filter sample_l8_ind) as (Hcell & _ & Hmed).
  split.
  - apply (Hcell 1%nat 1%nat (Float.of_Z 2)); [reflexivity|]. right. reflexivity.
  - destruct (Hmed 2018 elem_of_years_sample_l8_ind) as (r & Hr & Hp).
    exists r. split; [exact Hr|].
    destruct (Hp 1%nat) as [Hv _]; [vm_compute; lia|]. exact Hv.
Defined.

(** C9 on the sample SAR band: the cell with the nodata value in VH is
    dropped from VVVH, the others are kept. *)
Lemma vvvh_mask_reads_vh_witness :
  cell (vvvh_asc sample_quantile sample_nodata sample_VH sample_VVVH) 0 1 = Some nan ∧
  cell (vvvh_asc sample_quantile sample_nodata sample_VH sample_VVVH) 1 1 = Some (Float.of_Z 2).
Proof.
  destruct (vvvh_mask_reads_vh sample_quantile sample_nodata sample_VH sample_VVVH
              0 1 sample_nodata half) as (_ & H01 & _); [reflexivity|reflexivity|].
  destruct (vvvh_mask_reads_vh sample_quantile sample_nodata sample_VH sample_VVVH
              1 1 (Float.of_Z (-20)) (Float.of_Z 2)) as (_ & H11 & _);
    [reflexivity|reflexivity|].
  split; [exact H01|exact H11].
Defined.

(** C10 on the sample SAR band: pixel 1 has one observation, the cell
    holding the nodata value is not counted. *)
Lemma count_is_strictly_above_nodata_witness :
  count sample_nodata sample_VH !! 1%nat = Some 1 ∧
  count sample_nodata sample_VH !! 0%nat = Some 2.
Proof.
  assert (Hshape : shape_yx (npix sample_VH) sample_VH) by (repeat constructor).
  destruct (count_is_strictly_above_nodata sample_nodata sample_VH 1 Hshape) as (H1 & _);
    [vm_compute; lia|].
  destruct (count_is_strictly_above_nodata sample_nodata sample_VH 0 Hshape) as (H0 & _);
    [vm_compute; lia|].
  split; [exact H1|exact H0].
Defined.

(** * Further properties of the notebooks *)

(** ** Season window *)

Lemma season_of_month_jja m : 1 ≤ m ≤ 12 → (season_of_month m = JJA ↔ 6 ≤ m ≤ 8).
Proof.
  intros Hm.
  assert (Hcases : m = 1 ∨ m = 2 ∨ m = 3 ∨ m = 4 ∨ m = 5 ∨ m = 6 ∨ m = 7 ∨ m = 8 ∨
                   m = 9 ∨ m = 10 ∨ m = 11 ∨ m = 12) by lia.
  repeat (destruct Hcases as [->|Hcases]); try subst m;
    (split; [intros H; first [lia | discriminate H] | intros H; first [reflexivity | lia]]).
Qed.

(** X1.  A cell of the merged optical series survives the filter before
    the median exactly when its month is June, July or August and its
    value lies in [0, 1]; it then keeps its value. *)
Theorem summer_filter_keeps_june_to_august (da : DataArray spec_float) (i p : nat) (t : timestamp) (r : raster) (v : spec_float) :
  1 ≤ month t ≤ 12 →
  da !! i = Some (t, r) → r !! p = Some v →
  ∃ w, cell (s2_l8_ind_spy da) i p = Some w ∧
       (isnull w = false ↔
          6 ≤ month t ≤ 8 ∧ Float.ge v (Float.of_Z 0) = true ∧ Float.le v (Float.of_Z 1) = true) ∧
       (isnull w = false → w = v).
Proof.
  intros Hm Hi Hp. rewrite (cell_s2_l8_ind_spy da i p t r v Hi Hp).
  eexists. split; [done|].
  destruct (in_range_jja t v) eqn:Hr.
  - split; [|done]. split; [|by intros _; apply (in_range_jja_not_nan t v)].
    intros _. unfold in_range_jja in Hr.
    apply andb_true_iff in Hr as [[Hs%bool_decide_eq_true Hge]%andb_true_iff Hle].
    split; [by apply season_of_month_jja|done].
  - split; [|done]. split; [done|].
    intros (Hs & Hge & Hle). unfold in_range_jja in Hr.
    rewrite Hge, Hle, !andb_true_r in Hr.
    apply bool_decide_eq_false in Hr. exfalso. apply Hr.
    by apply season_of_month_jja.
Qed.

Lemma summer_filter_keeps_june_to_august_witness :
  ∃ w, cell (s2_l8_ind_spy sample_l8_ind) 2 1 = Some w ∧ isnull w = false ∧ w = half.
Proof.
  destruct (summer_filter_keeps_june_to_august sample_l8_ind 2 1 t18_l8
              [Float.of_Z 0; half] half) as (w & Hw & Hiff & Hval);
    [simpl; lia|reflexivity|reflexivity|].
  assert (Hnn : isnull w = false).
  { apply Hiff. split; [simpl; lia|]. split; reflexivity. }
  exists w. split; [exact Hw|]. split; [exact Hnn|]. apply Hval, Hnn.
Defined.

(** ** Merged time coordinate *)

Lemma lex_ltb_trans a : ∀ b c,
  lex_ltb a b = true → lex_ltb b c = true → lex_ltb a c = true.
Proof.
  induction a as [|x a IH]; intros [|y b] [|z c]; simpl; try done.
  destruct (Z.compare_spec x y), (Z.compare_spec y z), (Z.compare_spec x z);
    try done; try lia; eauto.
Qed.

Lemma lex_ltb_total a : ∀ b,
  length a = length b → lex_ltb a b = false → a ≠ b → lex_ltb b a = true.
Proof.
  induction a as [|x a IH]; intros [|y b]; simpl; try done.
  intros [= Hlen]. rewrite (Z.compare_antisym x y).
  destruct (Z.compare_spec x y) as [->| |]; simpl; try done.
  intros Hlt Hne. apply IH; [done|done|congruence].
Qed.

Lemma ts_ltb_lex a b : ts_ltb a b = lex_ltb (ts_fields a) (ts_fields b).
Proof. reflexivity. Qed.

Lemma ts_fields_inj a b : ts_fields a = ts_fields b → a = b.
Proof. destruct a, b. unfold ts_fields. simpl. congruence. Qed.

Lemma ts_ltb_trans a b c : ts_ltb a b = true → ts_ltb b c = true → ts_ltb a c = true.
Proof. rewrite !ts_ltb_lex. apply lex_ltb_trans. Qed.

Lemma ts_ltb_total a b : ts_ltb a b = false → a ≠ b → ts_ltb b a = true.
Proof.
  rewrite !ts_ltb_lex. intros Hlt Hne. apply lex_ltb_total; [done|done|].
  intros Heq. by apply Hne, ts_fields_inj.
Qed.

Lemma insert_uniq_ts_sorted x l :
  StronglySorted (λ a b, ts_ltb a b = true) l →
  StronglySorted (λ a b, ts_ltb a b = true) (insert_uniq ts_ltb x l).
Proof.
  induction 1 as [|z l Hs IH Hall]; simpl.
  - repeat constructor.
  - destruct (decide (x = z)) as [->|Hne]; [by constructor|].
    destruct (ts_ltb x z) eqn:Hlt.
    + constructor; [by constructor|].
      constructor; [done|]. eapply Forall_impl; [exact Hall|]. simpl.
      intros y Hy. by eapply ts_ltb_trans.
    + constructor; [done|].
      apply Forall_forall. intros y Hy.
      apply elem_of_insert_uniq in Hy as [->|Hy]; [by apply ts_ltb_total|].
      by eapply Forall_forall in Hall.
Qed.

Lemma sort_uniq_ts_sorted l : StronglySorted (λ a b, ts_ltb a b = true) (sort_uniq ts_ltb l).
Proof.
  unfold sort_uniq. induction l as [|x l IH]; simpl; [constructor|].
  by apply insert_uniq_ts_sorted.
Qed.

Lemma times_combine_first a b :
  times (combine_first a b) = index_union (times a) (times b).
Proof.
  unfold combine_first. simpl. rewrite fillna_reindex.
  unfold times. rewrite <- list_fmap_compose. apply list_fmap_id.
Qed.



(** ** Merged cells *)



(** Reindexing an array with unique labels to its own time coordinate
    gives the array back. *)
Lemma reindex_time_self n (a : DataArray spec_float) :
  NoDup (times a) → reindex_time n (times a) a = a.
Proof.
  unfold reindex_time, times. induction a as [|[t r] a IH]; simpl; [done|].
  intros [Hnot Hnd]%NoDup_cons. rewrite decide_True by done. simpl. f_equal.
  rewrite <- (IH Hnd) at 2. apply list_fmap_ext. intros i t' Ht'.
  destruct (decide (t = t')) as [->|Hne]; [|done].
  exfalso. apply Hnot. by eapply list_elem_of_lookup_2.
Qed.

Lemma fillna_self (a : DataArray spec_float) : fillna a a = a.
Proof.
  unfold fillna, da_zip. rewrite zip_with_diag.
  rewrite <- (list_fmap_id a) at 2. apply list_fmap_ext. intros i [t r] _. simpl.
  f_equal. rewrite zip_with_diag. rewrite <- (list_fmap_id r) at 2.
  apply list_fmap_ext. intros j x _. by destruct (isnull x).
Qed.

Lemma fillna_nan_slices n (a : DataArray spec_float) :
  shape_yx n a →
  fillna a ((λ t, (t, replicate n nan)) <$> times a) = a.
Proof.
  unfold fillna, da_zip, times. rewrite <- list_fmap_compose, zip_with_fmap_r, zip_with_diag.
  intros Hshape. rewrite <- (list_fmap_id a) at 2.
  apply Forall_fmap_ext_1. eapply Forall_impl; [exact Hshape|].
  intros [t r] Hr. simpl in *. by rewrite fill_with_nan.
Qed.

(** X4.  For a series with unique time labels on a grid: merging it
    with itself gives the series back, and so does merging it with an
    empty secondary series. *)
Theorem combine_first_neutral (a : DataArray spec_float) :
  NoDup (times a) →
  combine_first a a = a ∧
  (shape_yx (npix a) a → combine_first a [] = a).
Proof.
  intros Hnd. split.
  - unfold combine_first, index_union. simpl. rewrite decide_True by done.
    rewrite reindex_time_self by done. apply fillna_self.
  - intros Hshape. unfold combine_first. simpl. rewrite app_nil_r.
    assert (Hidx : index_union (times a) [] = times a).
    { unfold index_union. destruct (decide (times a = [])) as [->|?]; [done|].
      by rewrite decide_True. }
    rewrite Hidx, reindex_time_self by done.
    by apply fillna_nan_slices.
Qed.

Lemma combine_first_neutral_witness :
  combine_first sample_l8_ind sample_l8_ind = sample_l8_ind ∧
  combine_first sample_l8_ind [] = sample_l8_ind.
Proof.
  assert (Hnd : NoDup (times sample_l8_ind)).
  { apply (bool_decide_unpack _). vm_compute. exact I. }
  destruct (combine_first_neutral sample_l8_ind Hnd) as [Hself Hempty].
  split; [exact Hself|]. apply Hempty. repeat constructor.
Defined.

(** ** The composite as an observed value *)

Lemma elem_of_insert_float x y l : y ∈ insert_float x l ↔ y = x ∨ y ∈ l.
Proof.
  induction l as [|z l IH]; simpl.
  - apply elem_of_cons.
  - destruct (Float.le x z); [apply elem_of_cons|].
    rewrite !elem_of_cons, IH. tauto.
Qed.

Lemma elem_of_sort_floats y l : y ∈ sort_floats l ↔ y ∈ l.
Proof.
  unfold sort_floats. induction l as [|x l IH]; simpl; [done|].
  rewrite elem_of_insert_float, IH, elem_of_cons. tauto.
Qed.

Lemma length_insert_float x l : length (insert_float x l) = S (length l).
Proof.
  induction l as [|z l IH]; simpl; [done|].
  destruct (Float.le x z); simpl; [done|]. by rewrite IH.
Qed.

Lemma length_sort_floats l : length (sort_floats l) = length l.
Proof.
  unfold sort_floats. induction l as [|x l IH]; simpl; [done|].
  by rewrite length_insert_float, IH.
Qed.

(** With an odd number of valid values the median is one of them. *)
Lemma nanmedian_odd l :
  Nat.odd (length (List.filter (λ v, negb (isnull v)) l)) = true →
  nanmedian l ∈ List.filter (λ v, negb (isnull v)) l.
Proof.
  intros Hodd. unfold nanmedian.
  set (l' := List.filter (λ v, negb (isnull v)) l) in *.
  rewrite length_sort_floats.
  destruct (length l') as [|k] eqn:Hlen; [done|].
  change (S k =? 0)%nat with false. cbv iota.
  unfold Nat.odd in Hodd. apply negb_true_iff in Hodd. rewrite Hodd.
  apply elem_of_sort_floats, list_elem_of_In, nth_In.
  rewrite length_sort_floats, Hlen.
  apply Nat.div_lt; lia.
Qed.

Lemma kept_values_not_nan y p da :
  List.filter (λ v, negb (isnull v)) (kept_values y p da) = kept_values y p da.
Proof.
  pose proof (kept_values_in_range y p da) as H.
  induction H as [|v l [Hge _] _ IH]; simpl; [done|].
  destruct v; simpl in *; by rewrite ?IH.
Qed.

(** X5.  In the optical composite of a year, a pixel with an odd number
    of usable observations (summer, value in [0, 1]) gets one of these
    observations as its median, so a value in [0, 1]; with a single
    usable observation the composite is that observation. *)
Theorem composite_is_an_observation (da : DataArray spec_float) (y : Z) (p : nat) :
  y ∈ year <$> times da → (p < npix da)%nat →
  Nat.odd (length (kept_values y p da)) = true →
  ∃ r v, sel_year (mpspy da) y = Some r ∧ r !! p = Some v ∧
         v ∈ kept_values y p da ∧
         Float.ge v (Float.of_Z 0) = true ∧ Float.le v (Float.of_Z 1) = true ∧
         (∀ w, kept_values y p da = [w] → v = w).
Proof.
  intros Hy Hp Hodd. unfold mpspy. rewrite s2_l8_ind_spy_map_time.
  destruct (groupby_map_time (λ t v, if in_range_jja t v then v else nan) da y Hy)
    as (r & Hr & _ & Hcell).
  exists r, (nanmedian (kept_values y p da)). split; [done|].
  split.
  { rewrite (Hcell p Hp). f_equal. apply nanmedian_ext, kept_values_filter. }
  assert (Hin : nanmedian (kept_values y p da) ∈ kept_values y p da).
  { rewrite <- (kept_values_not_nan y p da) at 2. apply nanmedian_odd.
    by rewrite kept_values_not_nan. }
  split; [done|].
  pose proof (kept_values_in_range y p da) as Hrange.
  rewrite Forall_forall in Hrange. destruct (Hrange _ Hin) as [Hge Hle].
  split; [done|]. split; [done|].
  intros w Hw. rewrite Hw in Hin |- *. by apply list_elem_of_singleton in Hin.
Qed.

Lemma composite_is_an_observation_witness :
  ∃ r, sel_year (mpspy sample_l8_ind) 2018 = Some r ∧ r !! 1%nat = Some half.
Proof.
  destruct (composite_is_an_observation sample_l8_ind 2018 1)
    as (r & v & Hr & Hv & _ & _ & _ & Hone);
    [apply list_elem_of_In; vm_compute; tauto|vm_compute; lia|reflexivity|].
  exists r. split; [exact Hr|]. rewrite Hv. f_equal. apply Hone. reflexivity.
Defined.

(** ** Year positions *)

Lemma filter_none {A} (f : A → bool) (l : list A) :
  Forall (λ z, f z = false) l → List.filter f l = [].
Proof. induction 1 as [|z l Hz _ IH]; simpl; [done|]. by rewrite Hz. Qed.

Lemma sorted_rank (l : list Z) :
  StronglySorted Z.lt l →
  ∀ i y, l !! i = Some y → length (List.filter (λ z, z <? y) l) = i.
Proof.
  induction 1 as [|x l Hs IH Hall]; intros i y Hi; [done|].
  rewrite Forall_forall in Hall. destruct i as [|i]; simpl in Hi.
  - injection Hi as ->. simpl. rewrite Z.ltb_irrefl.
    rewrite filter_none; [done|].
    apply Forall_forall. intros z Hz.
    apply Z.ltb_ge. specialize (Hall z Hz). lia.
  - simpl. assert (x < y) as ->%Z.ltb_lt.
    { apply Hall. by eapply list_elem_of_lookup_2. }
    simpl. f_equal. by apply IH.
Qed.

Lemma mpspy_years da : (mpspy da).*1 = years_index da.
Proof.
  unfold mpspy. rewrite groupby_years, s2_l8_ind_spy_map_time.
  apply years_index_da_map_time.
Qed.

(** X6.  The positions of [mpspy] are by rank of the years that occur in
    the data, not by calendar year: the composite at position [i]
    belongs to the year with exactly [i] earlier years in the time
    coordinate; position 0 is the earliest year of the data. *)
Theorem year_position_is_rank (da : DataArray spec_float) (i : nat) (y : Z) (r : raster) :
  mpspy da !! i = Some (y, r) →
  isel_year (mpspy da) (Z.of_nat i) = Ok r ∧
  sel_year (mpspy da) y = Some r ∧
  y ∈ year <$> times da ∧
  length (List.filter (λ z, z <? y) (years_index da)) = i ∧
  (i = 0%nat → ∀ y', y' ∈ year <$> times da → y ≤ y').
Proof.
  intros Hi.
  assert (Hyi : years_index da !! i = Some y).
  { rewrite <- mpspy_years, list_lookup_fmap, Hi. done. }
  assert (Hy : y ∈ years_index da) by by eapply list_elem_of_lookup_2.
  assert (Hr : r = median_time (npix (s2_l8_ind_spy da)) (group_year y (s2_l8_ind_spy da))).
  { unfold mpspy, groupby_year_median in Hi. rewrite list_lookup_fmap in Hi.
    destruct (years_index (s2_l8_ind_spy da) !! i) as [y0|]; simpl in Hi; [|done].
    by injection Hi as -> ->. }
  split; [|split; [|split; [|split]]].
  - unfold isel_year. by rewrite (getitem_nonneg _ _ _ Hi).
  - unfold mpspy, groupby_year_median.
    rewrite (sel_year_fmap (λ y, median_time _ (group_year y _))); [by rewrite Hr|].
    rewrite s2_l8_ind_spy_map_time, years_index_da_map_time. done.
  - by apply elem_of_sort_uniq in Hy.
  - apply sorted_rank; [apply sort_uniq_sorted|done].
  - intros -> y' Hy'. apply (elem_of_sort_uniq Z.ltb) in Hy'.
    apply list_elem_of_lookup_1 in Hy' as [j Hj].
    pose proof (sort_uniq_sorted (year <$> times da)) as Hs.
    destruct j as [|j]; [unfold years_index in Hyi; by simplify_eq|].
    unfold years_index in Hyi. 
    destruct (sort_uniq Z.ltb (year <$> times da)) as [|y0 l]; [done|].
    simpl in Hyi, Hj. injection Hyi as ->.
    apply StronglySorted_inv in Hs as [_ Hall]. rewrite Forall_forall in Hall.
    assert (y < y'); [|lia]. apply Hall. by eapply list_elem_of_lookup_2.
Qed.

Lemma year_position_is_rank_witness :
  isel_year (mpspy sample_merged) 1 = Ok [half; S754_finite false 6755399441055744 (-53)] ∧
  sel_year (mpspy sample_merged) 2018 = Some [half; S754_finite false 6755399441055744 (-53)].
Proof.
  destruct (year_position_is_rank sample_merged 1 2018
              [half; S754_finite false 6755399441055744 (-53)])
    as (Hpos & Hsel & _); [reflexivity|].
  split; [exact Hpos|exact Hsel].
Defined.

(** ** Differences and the number of years *)

Lemma mpspy_length da : length (mpspy da) = length (years_index da).
Proof. by rewrite <- mpspy_years, length_fmap. Qed.

Lemma mpspy_sizes da : Forall (λ c : Z * raster, length c.2 = npix da) (mpspy da).
Proof.
  unfold mpspy, groupby_year_median. rewrite Forall_fmap.
  apply Forall_forall. intros y _. simpl.
  by rewrite median_time_length, s2_l8_ind_spy_map_time, npix_da_map_time.
Qed.

Lemma isel_year_size n (m : list (Z * raster)) i r :
  Forall (λ c : Z * raster, length c.2 = n) m → isel_year m i = Ok r → length r = n.
Proof.
  intros Hall. unfold isel_year, getitem.
  destruct (_ || _); simpl; [done|].
  destruct (m !! _) as [[y c]|] eqn:Hc; simpl; [|done].
  intros [= <-]. rewrite Forall_forall in Hall.
  apply (Hall (y, c)). by eapply list_elem_of_lookup_2.
Qed.

Lemma diff_18_raises m e : diff_18 m = Raise e → e = IndexError.
Proof.
  unfold diff_18.
  destruct (isel_year m 1) as [a|e1] eqn:E1; simpl;
    [|intros [= <-]; by eapply isel_year_raises].
  destruct (isel_year m 0) as [b|e0] eqn:E0; simpl; [done|].
  intros [= <-]. by eapply isel_year_raises.
Qed.



(** ** Masking a dataset *)

(** A predicate set that [create_mask_value] accepts holds known
    predicates only. *)
Lemma create_mask_value_from_known bits_def flags :
  ∀ mask value r,
  create_mask_value_from bits_def flags mask value = Ok r →
  forallb (predicate_known bits_def) flags = true.
Proof.
  induction flags as [|[name ref] rest IH]; intros mask value r Hrun; simpl in *; [done|].
  unfold predicate_known at 1. simpl.
  destruct (bits_def !! name) as [defn|]; [|done].
  destruct (flag_value defn ref) as [fv|]; simpl in Hrun; [|done].
  destruct (bits defn) as [bit|[|b0 bs]]; simpl in Hrun; try done; eauto.
Qed.

(** The cell of the mask that [make_mask] returns. *)
Lemma make_mask_cell bits_def flags variable m i p w :
  well_formed bits_def flags = true →
  make_mask bits_def variable flags = Ok m →
  cell variable i p = Some w →
  cell m i p = Some (forallb (predicate_holds bits_def w) flags).
Proof.
  intros Hwf Hm Hw. unfold make_mask, create_mask_value in Hm.
  destruct (create_mask_value_from bits_def flags 0 0) as [[mask value]|] eqn:Hrun;
    simpl in Hm; [|done].
  injection Hm as <-. rewrite cell_da_map, Hw. simpl. f_equal.
  pose proof (create_mask_value_from_known _ _ _ _ _ Hrun) as Hknown.
  destruct (create_mask_value_from_correct bits_def flags 0 0 Hwf Hknown)
    as (mask' & value' & Hrun' & Hcmp).
  { apply forallb_forall. intros q _. by rewrite Z.land_0_r. }
  { done. }
  rewrite Hrun in Hrun'. injection Hrun' as <- <-.
  by rewrite Hcmp, Z.land_0_r.
Qed.

(** X8.  Masking a loaded dataset with the mask of its flag band: the
    masked dataset has the same variables; a band value at a
    pixel-timestamp is kept, as a float, when the flag word there passes
    every predicate, and is NaN otherwise. *)
Theorem masked_band_cell (bits_def : gmap string flag_defn) (flags : list (string * flag_ref)) (ds : gmap string (DataArray Z)) (qa band : DataArray Z) (m : DataArray bool) (name : string) (i p : nat) (v w : Z) :
  well_formed bits_def flags = true →
  make_mask bits_def qa flags = Ok m →
  ds !! name = Some band → cell band i p = Some v → cell qa i p = Some w →
  dom (ds_where ds m) = dom ds ∧
  ∃ masked, ds_where ds m !! name = Some masked ∧
            cell masked i p =
              Some (if forallb (predicate_holds bits_def w) flags then Float.of_Z v else nan).
Proof.
  intros Hwf Hm Hband Hv Hw. split; [apply dom_fmap_L|].
  unfold ds_where. rewrite lookup_fmap, Hband. simpl. eexists. split; [done|].
  rewrite cell_where, cell_da_map, Hv, (make_mask_cell _ _ _ _ _ _ _ Hwf Hm Hw). done.
Qed.

Lemma masked_band_cell_witness :
  ∃ m masked,
    make_mask force_qai [(t17, [0; 0]); (t18, [0; 8]); (Timestamp 2019 7 1 10 30, [0; 0])] flags = Ok m ∧
    ds_where sample_ds_s2 m !! "nir" = Some masked ∧
    cell masked 0 0 = Some (Float.of_Z 300) ∧ cell masked 1 1 = Some nan.
Proof.
  destruct (make_mask force_qai
              [(t17, [0; 0]); (t18, [0; 8]); (Timestamp 2019 7 1 10 30, [0; 0])] flags)
    as [m|] eqn:Hm;
    [|vm_compute in Hm; discriminate Hm].
  destruct (masked_band_cell force_qai flags sample_ds_s2
              [(t17, [0; 0]); (t18, [0; 8]); (Timestamp 2019 7 1 10 30, [0; 0])]
              [(t17, [300; 0]); (t18, [600; 300]); (Timestamp 2019 7 1 10 30, [500; 700])]
              m "nir" 0 0 300 0) as (_ & masked & Hmasked & H00); try reflexivity; [exact Hm|].
  destruct (masked_band_cell force_qai flags sample_ds_s2
              [(t17, [0; 0]); (t18, [0; 8]); (Timestamp 2019 7 1 10 30, [0; 0])]
              [(t17, [300; 0]); (t18, [600; 300]); (Timestamp 2019 7 1 10 30, [500; 700])]
              m "nir" 1 1 300 8) as (_ & masked' & Hmasked' & H11); try reflexivity; [exact Hm|].
  rewrite Hmasked in Hmasked'. injection Hmasked' as <-.
  exists m, masked. split; [reflexivity|]. split; [exact Hmasked|].
  split; [exact H00|exact H11].
Defined.

(** ** Order of the cells *)

Lemma stage_mask_binds bits_def ns ns' :
  stage_mask bits_def ns = Ok ns' →
  ∃ raw_s2 raw_l8 mask_s2 mask_l8 qa_s2 qa_l8,
    ns !! "ds_s2" = Some (VRaw raw_s2) ∧ ns !! "ds_l8" = Some (VRaw raw_l8) ∧
    raw_s2 !! "pixel_qa" = Some qa_s2 ∧ raw_l8 !! "pixel_qa" = Some qa_l8 ∧
    make_mask bits_def qa_s2 flags = Ok mask_s2 ∧
    make_mask bits_def qa_l8 flags = Ok mask_l8 ∧
    ns' !! "s2" = Some (VDataset (ds_where raw_s2 mask_s2)) ∧
    ns' !! "l8" = Some (VDataset (ds_where raw_l8 mask_l8)).
Proof.
  intros H. unfold stage_mask in H.
  destruct (get_raw ns "ds_s2") as [raw_s2|] eqn:E1; simpl in H; [|done].
  destruct (get_raw ns "ds_l8") as [raw_l8|] eqn:E2; simpl in H; [|done].
  destruct (getattr raw_s2 "pixel_qa") as [qa_s2|] eqn:E3; simpl in H; [|done].
  destruct (make_mask bits_def qa_s2 flags) as [mask_s2|] eqn:E4; simpl in H; [|done].
  destruct (getattr raw_l8 "pixel_qa") as [qa_l8|] eqn:E5; simpl in H; [|done].
  destruct (make_mask bits_def qa_l8 flags) as [mask_l8|] eqn:E6; simpl in H; [|done].
  injection H as <-.
  exists raw_s2, raw_l8, mask_s2, mask_l8, qa_s2, qa_l8.
  unfold get_raw in E1, E2. unfold getattr in E3, E5.
  destruct (ns !! "ds_s2") as [[]|]; try done. injection E1 as ->.
  destruct (ns !! "ds_l8") as [[]|]; try done. injection E2 as ->.
  destruct (raw_s2 !! "pixel_qa"); [|done]. injection E3 as ->.
  destruct (raw_l8 !! "pixel_qa"); [|done]. injection E5 as ->.
  repeat (split; [done|]).
  split; [by rewrite lookup_insert_ne, lookup_insert_eq|by rewrite lookup_insert_eq].
Qed.

(** X9.  The merge cell depends on the index cell: run directly after
    the masking cell, on loaded data without a variable [NDVI], it raises
    [AttributeError] at [s2.NDVI]. *)
Theorem merge_before_index_raises (bits_def : gmap string flag_defn) (ns ns' : gmap string value) (raw : gmap string (DataArray Z)) :
  stage_mask bits_def ns = Ok ns' →
  ns !! "ds_s2" = Some (VRaw raw) → raw !! "NDVI" = None →
  stage_merge ns' = Raise (AttributeError "NDVI").
Proof.
  intros Hmask Hraw Hno.
  destruct (stage_mask_binds _ _ _ Hmask)
    as (raw_s2 & raw_l8 & mask_s2 & mask_l8 & qa_s2 & qa_l8 & H1 & _ & _ & _ & _ & _ & Hs2 & _).
  rewrite Hraw in H1. injection H1 as <-.
  unfold stage_merge, get_dataset. rewrite Hs2. simpl.
  unfold getattr, ds_where. by rewrite lookup_fmap, Hno.
Qed.

Lemma merge_before_index_raises_witness :
  stage_merge sample_ns1 = Raise (AttributeError "NDVI") ∧
  ∃ ns3, stage_merge sample_ns2 = Ok ns3.
Proof.
  split.
  - apply (merge_before_index_raises force_qai sample_ns sample_ns1 sample_ds_s2);
      vm_compute; reflexivity.
  - exists sample_ns3. vm_compute. reflexivity.
Defined.

(** ** Masked pixels in the index *)

(** X10.  Masking precedes the index computation: at a pixel-timestamp
    whose flag word fails a predicate, the [NDVI] that the index cell
    adds to [s2] is NaN, whatever the band values are. *)
Theorem masked_pixel_has_nan_index (bits_def : gmap string flag_defn) (kernel : spec_float → spec_float) (ns ns1 ns2 : gmap string value) (raw : gmap string (DataArray Z)) (qa nir red : DataArray Z) (i p : nat) (w a b : Z) :
  well_formed bits_def flags = true →
  stage_mask bits_def ns = Ok ns1 → stage_index kernel ns1 = Ok ns2 →
  ns !! "ds_s2" = Some (VRaw raw) →
  raw !! "pixel_qa" = Some qa → raw !! "nir" = Some nir → raw !! "red" = Some red →
  cell qa i p = Some w → cell nir i p = Some a → cell red i p = Some b →
  forallb (predicate_holds bits_def w) flags = false →
  ∃ index, dataset_var ns2 "s2" "NDVI" = Some index ∧ cell index i p = Some nan.
Proof.
  intros Hwf Hmask Hindex Hraw Hqa Hnir Hred Hw Ha Hb Hfail.
  destruct (stage_mask_binds _ _ _ Hmask)
    as (raw_s2 & raw_l8 & mask_s2 & mask_l8 & qa_s2 & qa_l8 &
        H1 & _ & Hq & _ & Hm & _ & Hs2 & _).
  rewrite Hraw in H1. injection H1 as <-. rewrite Hqa in Hq. injection Hq as <-.
  unfold stage_index, get_dataset in Hindex. rewrite Hs2 in Hindex. simpl in Hindex.
  rewrite (optical_ndvi_kndvi kernel (ds_where raw mask_s2)
             (where_ (da_map Float.of_Z nir) mask_s2) (where_ (da_map Float.of_Z red) mask_s2) true)
    in Hindex by (unfold ds_where; by rewrite lookup_fmap, ?Hnir, ?Hred).
  simpl in Hindex. rewrite lookup_insert_ne in Hindex by done.
  destruct (ns1 !! "l8") as [[| l8 | | | |]|]; simpl in Hindex; try done.
  destruct (optical kernel l8 ["NDVI"; "kNDVI"] true) as [r8|]; simpl in Hindex; [|done].
  injection Hindex as <-.
  unfold dataset_var. rewrite lookup_insert_ne, lookup_insert_eq by done.
  rewrite lookup_insert_ne, lookup_insert_eq by done.
  eexists. split; [done|].
  rewrite cell_da_zip, !cell_where, !cell_da_map, Ha, Hb.
  rewrite (make_mask_cell _ _ _ _ _ _ _ Hwf Hm Hw), Hfail. done.
Qed.

Lemma masked_pixel_has_nan_index_witness :
  ∃ index, dataset_var sample_ns2 "s2" "NDVI" = Some index ∧ cell index 1 1 = Some nan.
Proof.
  apply (masked_pixel_has_nan_index force_qai sample_kernel sample_ns sample_ns1 sample_ns2
           sample_ds_s2
           [(t17, [0; 0]); (t18, [0; 8]); (Timestamp 2019 7 1 10 30, [0; 0])]
           [(t17, [300; 0]); (t18, [600; 300]); (Timestamp 2019 7 1 10 30, [500; 700])]
           [(t17, [100; 0]); (t18, [200; 300]); (Timestamp 2019 7 1 10 30, [100; 100])]
           1 1 8 300 300); vm_compute; reflexivity.
Defined.

(** ** A flag that the product does not define *)

Lemma create_mask_value_from_raises bits_def flags :
  ∀ mask value e,
  create_mask_value_from bits_def flags mask value = Raise e → ∃ msg, e = ValueError msg.
Proof.
  induction flags as [|[name ref] rest IH]; intros mask value e; simpl; [done|].
  destruct (bits_def !! name) as [defn|]; [|intros [= <-]; eauto].
  unfold flag_value.
  destruct (List.filter _ (values defn)) as [|kv [|kv' l]]; simpl;
    try (intros [= <-]; eauto).
  destruct (bits defn) as [bit|[|b0 bs]]; simpl; try (intros [= <-]; eauto); apply IH.
Qed.

Lemma create_mask_value_from_unknown bits_def flags name ref :
  (name, ref) ∈ flags → bits_def !! name = None →
  ∀ mask value, ∃ msg, create_mask_value_from bits_def flags mask value = Raise (ValueError msg).
Proof.
  intros Hin Hno mask value.
  destruct (create_mask_value_from bits_def flags mask value) as [r|e] eqn:Hrun.
  - apply create_mask_value_from_known in Hrun.
    rewrite forallb_forall in Hrun. apply list_elem_of_In in Hin.
    specialize (Hrun _ Hin). unfold predicate_known in Hrun. simpl in Hrun.
    by rewrite Hno in Hrun.
  - destruct (create_mask_value_from_raises _ _ _ _ _ Hrun) as [msg ->]. eauto.
Qed.

(** X11.  A predicate on a flag that the product's flag definition does
    not have makes [make_mask] raise [ValueError], wherever the predicate
    stands in the set; the masking cell then raises it too and binds no
    mask. *)
Theorem unknown_flag_raises (bits_def : gmap string flag_defn) (name : string) (ref : flag_ref) :
  (name, ref) ∈ flags → bits_def !! name = None →
  (∀ variable, ∃ msg, make_mask bits_def variable flags = Raise (ValueError msg)) ∧
  (∀ ns raw_s2 raw_l8 qa,
     ns !! "ds_s2" = Some (VRaw raw_s2) → ns !! "ds_l8" = Some (VRaw raw_l8) →
     raw_s2 !! "pixel_qa" = Some qa →
     ∃ msg, stage_mask bits_def ns = Raise (ValueError msg)).
Proof.
  intros Hin Hno.
  assert (Hmask : ∀ variable, ∃ msg, make_mask bits_def variable flags = Raise (ValueError msg)).
  { intros variable. unfold make_mask, create_mask_value.
    destruct (create_mask_value_from_unknown bits_def flags name ref Hin Hno 0 0) as [msg ->].
    eauto. }
  split; [done|].
  intros ns raw_s2 raw_l8 qa Hs2 Hl8 Hqa.
  unfold stage_mask, get_raw, getattr. rewrite Hs2, Hl8. simpl. rewrite Hqa. simpl.
  destruct (Hmask qa) as [msg ->]. eauto.
Qed.

Lemma unknown_flag_raises_witness :
  ∃ msg, stage_mask sample_bits_no_zenith sample_ns = Raise (ValueError msg).
Proof.
  destruct (unknown_flag_raises sample_bits_no_zenith "high_sun_zenith_flag" (Flag false))
    as [_ Hstage].
  - apply list_elem_of_In. vm_compute. tauto.
  - vm_compute. reflexivity.
  - apply (Hstage sample_ns sample_ds_s2 sample_ds_l8
             [(t17, [0; 0]); (t18, [0; 8]); (Timestamp 2019 7 1 10 30, [0; 0])]);
      vm_compute; reflexivity.
Defined.

(** ** Optical observations per pixel *)

Lemma sum_time_lookup (m : DataArray bool) p :
  shape_yx (npix m) m → (p < npix m)%nat →
  sum_time m !! p =
  Some (Z.of_nat (length (List.filter (λ s : timestamp * list bool, default false (s.2 !! p)) m))).
Proof. intros Hshape Hp. unfold sum_time. by apply sum_from_lookup. Qed.

Lemma npix_da_map {V W} (f : V → W) (da : DataArray V) : npix (da_map f da) = npix da.
Proof. rewrite da_map_map_time. apply npix_da_map_time. Qed.

(** X12.  The count of optical observations of a pixel is the number of
    time steps whose flag word is valid, clear and free of cloud shadow.
    These three predicates are the first three of the pipeline's seven,
    so every pixel-timestamp that the pipeline keeps is counted. *)
Theorem optical_count_is_clear_steps (bits_def : gmap string flag_defn) (pixel_qa : DataArray Z) (p : nat) :
  well_formed bits_def flags_obs_perpixel = true →
  forallb (predicate_known bits_def) flags_obs_perpixel = true →
  shape_yx (npix pixel_qa) pixel_qa → (p < npix pixel_qa)%nat →
  (∃ c, count_obs_perpixel_optical bits_def pixel_qa = Ok c ∧
        c !! p = Some (Z.of_nat (length (List.filter
                   (λ s : timestamp * list Z,
                      from_option (λ w, forallb (predicate_holds bits_def w) flags_obs_perpixel)
                                  false (s.2 !! p)) pixel_qa)))) ∧
  (∀ w, forallb (predicate_holds bits_def w) flags = true →
        forallb (predicate_holds bits_def w) flags_obs_perpixel = true).
Proof.
  intros Hwf Hknown Hshape Hp. split.
  - destruct (create_mask_value_from_correct bits_def flags_obs_perpixel 0 0 Hwf Hknown)
      as (mask & value & Hrun & Hcmp).
    { apply forallb_forall. intros q _. by rewrite Z.land_0_r. }
    { done. }
    unfold count_obs_perpixel_optical, make_mask, create_mask_value.
    rewrite Hrun. simpl. eexists. split; [done|].
    rewrite sum_time_lookup
      by (rewrite npix_da_map; first [by apply shape_yx_da_map | done]).
    f_equal. f_equal.
    change (λ s : timestamp * list bool, default false (s.2 !! p))
      with (λ s : timestamp * list bool, from_option (λ c : bool, c) false (s.2 !! p)).
    rewrite filter_da_map. f_equal. apply List.filter_ext. intros [t r]. simpl.
    destruct (r !! p) as [w|]; simpl; [|done]. by rewrite Hcmp, Z.land_0_r.
  - intros w H. unfold flags in H. unfold flags_obs_perpixel. simpl in *.
    repeat (apply andb_true_iff in H as [? H]).
    repeat (apply andb_true_iff; split; try done).
Qed.

Lemma optical_count_is_clear_steps_witness :
  ∃ c, count_obs_perpixel_optical force_qai sample_qa_stack = Ok c ∧
       c !! 0%nat = Some 2 ∧ c !! 1%nat = Some 2.
Proof.
  assert (Hshape : shape_yx (npix sample_qa_stack) sample_qa_stack) by (repeat constructor).
  destruct (optical_count_is_clear_steps force_qai sample_qa_stack 0)
    as [(c & Hc & H0) _]; [reflexivity|reflexivity|exact Hshape|vm_compute; lia|].
  destruct (optical_count_is_clear_steps force_qai sample_qa_stack 1)
    as [(c' & Hc' & H1) _]; [reflexivity|reflexivity|exact Hshape|vm_compute; lia|].
  rewrite Hc in Hc'. injection Hc' as <-.
  exists c. split; [exact Hc|]. split; [exact H0|exact H1].
Defined.

(** ** SAR observations per pixel *)

Lemma filter_length_le {A} (f : A → bool) (l : list A) :
  (length (List.filter f l) ≤ length l)%nat.
Proof. induction l as [|x l IH]; simpl; [done|]. destruct (f x); simpl; lia. Qed.

Lemma filter_length_all {A} (f : A → bool) (l : list A) :
  length (List.filter f l) = length l ↔ Forall (λ x, f x = true) l.
Proof.
  induction l as [|x l IH]; simpl; [by split; [constructor|]|].
  pose proof (filter_length_le f l). destruct (f x) eqn:Hx; simpl.
  - rewrite Forall_cons. split; [intros [= H']; tauto|intros [_ H']; f_equal; tauto].
  - split; [lia|]. intros [? _]%Forall_cons. congruence.
Qed.

Lemma sum_from_length n (m : DataArray bool) :
  shape_yx n m →
  length (foldr (λ (s : timestamp * list bool) acc, zip_with Z.add (Z.b2z <$> s.2) acc)
                (replicate n 0) m) = n.
Proof.
  induction 1 as [|[t r] m Hr _ IH]; simpl; [by rewrite length_replicate|].
  simpl in Hr. rewrite length_zip_with, length_fmap, IH. lia.
Qed.

(** X13.  The SAR observation count has one entry per pixel; the count
    of a pixel lies between 0 and the number of time steps, and reaches
    the number of time steps exactly when every value of the pixel is
    above the nodata value. *)
Theorem count_bounds (nodata : spec_float) (VH : DataArray spec_float) (p : nat) :
  shape_yx (npix VH) VH → (p < npix VH)%nat →
  length (count nodata VH) = npix VH ∧
  ∃ c, count nodata VH !! p = Some c ∧ 0 ≤ c ≤ Z.of_nat (length VH) ∧
       (c = Z.of_nat (length VH) ↔
          Forall (λ s : timestamp * list spec_float,
                    ∃ v, s.2 !! p = Some v ∧ Float.gt v nodata = true) VH).
Proof.
  intros Hshape Hp.
  assert (Hshape' : shape_yx (npix VH)
            (xr_where_bool (da_map (λ v, Float.gt v nodata) VH))).
  { unfold xr_where_bool. by do 2 apply shape_yx_da_map. }
  split.
  { unfold count, sum_time, xr_where_bool. rewrite !npix_da_map.
    by apply sum_from_length. }
  unfold count. rewrite sum_time_lookup
    by (unfold xr_where_bool; rewrite !npix_da_map; done).
  eexists. split; [done|].
  unfold xr_where_bool.
  change (λ s : timestamp * list bool, default false (s.2 !! p))
    with (λ s : timestamp * list bool, from_option (λ c : bool, c) false (s.2 !! p)).
  rewrite !filter_da_map.
  set (f := λ s : timestamp * raster,
         from_option (λ v, if Float.gt v nodata then true else false) false (s.2 !! p)).
  pose proof (filter_length_le f VH). split; [lia|].
  rewrite Nat2Z.inj_iff, filter_length_all.
  apply Forall_iff. intros [t r]. unfold f. simpl.
  destruct (r !! p) as [v|]; simpl.
  - destruct (Float.gt v nodata) eqn:Hg.
    + split; [intros _; eauto|done].
    + split; [done|]. intros (v0 & [= <-] & Hv0). congruence.
  - split; [done|]. by intros (? & ? & _).
Qed.

Lemma count_bounds_witness :
  length (count sample_nodata sample_VH) = 2%nat ∧
  ∃ c, count sample_nodata sample_VH !! 0%nat = Some c ∧ c = 2.
Proof.
  destruct (count_bounds sample_nodata sample_VH 0) as (Hlen & c & Hc & _ & Hall);
    [repeat constructor|vm_compute; lia|].
  split; [exact Hlen|]. exists c. split; [exact Hc|].
  apply Hall. repeat constructor; eexists; split; reflexivity.
Defined.

(** ** What the SAR filter leaves *)

Lemma cell_sar_mask quantile nodata VH i p vh :
  cell VH i p = Some vh →
  cell (sar_mask quantile nodata VH) i p =
  Some (Float.ne vh nodata && Float.ge vh (quantile VH q05) && Float.le vh (quantile VH q95)).
Proof. intros H. unfold sar_mask. by rewrite !cell_da_and, !cell_da_map, H. Qed.

(** X14.  A cell of the filtered VH series that is not NaN is the VH
    value itself, a value that does not compare equal to the nodata
    value and lies between the two quantiles: the nodata value never
    reaches the seasonal median. *)
Theorem filtered_vh_has_no_nodata (quantile : DataArray spec_float → spec_float → spec_float) (nodata : spec_float) (VH : DataArray spec_float) (i p : nat) (v : spec_float) :
  cell (vh_asc quantile nodata VH) i p = Some v → isnull v = false →
  cell VH i p = Some v ∧ Float.eq v nodata = false ∧
  Float.ge v (quantile VH q05) = true ∧ Float.le v (quantile VH q95) = true.
Proof.
  unfold vh_asc. rewrite cell_where. intros Hc Hv.
  destruct (cell VH i p) as [vh|] eqn:Hvh; simpl in Hc; [|done].
  rewrite (cell_sar_mask quantile nodata VH i p vh Hvh) in Hc. simpl in Hc.
  injection Hc as <-.
  destruct (Float.ne vh nodata && _ && _) eqn:Hkeep; [|done].
  apply andb_true_iff in Hkeep as [[Hne Hge]%andb_true_iff Hle].
  unfold Float.ne in Hne. apply negb_true_iff in Hne. done.
Qed.

Lemma filtered_vh_has_no_nodata_witness :
  cell sample_VH 1 1 = Some (Float.of_Z (-20)) ∧
  Float.eq (Float.of_Z (-20)) sample_nodata = false.
Proof.
  destruct (filtered_vh_has_no_nodata sample_quantile sample_nodata sample_VH 1 1
              (Float.of_Z (-20))) as (Hc & Hne & _); [reflexivity|reflexivity|].
  split; [exact Hc|exact Hne].
Defined.

(** ** The season of the VVVH composites *)

Lemma fmap_const_replicate {A B} (c : B) (l : list A) :
  (λ _, c) <$> l = replicate (length l) c.
Proof. induction l as [|x l IH]; simpl; [done|]. f_equal. apply IH. Qed.

Lemma da_time_cond_coords {V} (f : timestamp → bool) (da : DataArray V) :
  da_time_cond f da =
  (λ c : timestamp * nat, (c.1, replicate c.2 (f c.1))) <$> coords da.
Proof.
  unfold da_time_cond, coords. rewrite <- list_fmap_compose.
  apply list_fmap_ext. intros i [t r] _. simpl. by rewrite fmap_const_replicate.
Qed.

Lemma coords_da_zip {U V W} (g : U → V → W) (a : DataArray U) (b : DataArray V) :
  coords (da_zip g a b) =
  zip_with (λ ca cb : timestamp * nat, (ca.1, Nat.min ca.2 cb.2)) (coords a) (coords b).
Proof.
  unfold coords, da_zip. rewrite zip_with_fmap_l, zip_with_fmap_r.
  revert b. induction a as [|[ta ra] a IH]; intros [|[tb rb] b]; simpl; try done.
  rewrite length_zip_with. f_equal. apply IH.
Qed.

(** X15.  The VVVH composites take the season from the time coordinate
    of the filtered VH series.  Both filtered series come from bands on
    the same coordinates, so this is the same as taking the season from
    the filtered VVVH series itself: the four SAR composites are computed
    alike. *)
Theorem vvvh_composites_use_same_season (quantile : DataArray spec_float → spec_float → spec_float) (nodata : spec_float) (VH VVVH : DataArray spec_float) :
  coords VVVH = coords VH →
  mpspy_vvvh_asc (vvvh_asc quantile nodata VH VVVH) (vh_asc quantile nodata VH) =
  mpspy_vh_asc (vvvh_asc quantile nodata VH VVVH).
Proof.
  intros Hco. unfold mpspy_vvvh_asc, mpspy_vh_asc. do 2 f_equal.
  rewrite !da_time_cond_coords. f_equal.
  unfold vh_asc, vvvh_asc, where_. by rewrite !coords_da_zip, Hco.
Qed.

Lemma vvvh_composites_use_same_season_witness :
  mpspy_vvvh_asc (vvvh_asc sample_quantile sample_nodata sample_VH sample_VVVH)
                 (vh_asc sample_quantile sample_nodata sample_VH) =
  [(2017, [half; nan]); (2018, [Float.of_Z 1; Float.of_Z 2])].
Proof.
  rewrite (vvvh_composites_use_same_season sample_quantile sample_nodata
             sample_VH sample_VVVH); reflexivity.
Defined.

(** ** The pixel series by sensor *)

Lemma da_map_time_compose {U V W} (g : timestamp → V → W) (h : timestamp → U → V) (da : DataArray U) :
  da_map_time g (da_map_time h da) = da_map_time (λ t v, g t (h t v)) da.
Proof.
  unfold da_map_time. rewrite <- list_fmap_compose.
  apply list_fmap_ext. intros i [t r] _. simpl. by rewrite <- list_fmap_compose.
Qed.

Lemma cell_da_map_time {V W} (g : timestamp → V → W) (da : DataArray V) i p t r v :
  da !! i = Some (t, r) → r !! p = Some v →
  cell (da_map_time g da) i p = Some (g t v).
Proof.
  intros Hi Hp. unfold cell, da_map_time. rewrite list_lookup_fmap, Hi. simpl.
  by rewrite list_lookup_fmap, Hp.
Qed.

Lemma where_minute_map_time m x :
  where_minute m x = da_map_time (λ t v, if bool_decide (minute t = m) then v else nan) x.
Proof.
  unfold where_minute, where_. by rewrite da_time_cond_map_time, da_zip_self_map_time.
Qed.

Lemma ndvi_map_time px :
  ndvi px =
  da_map_time (λ _ v, if Float.ge v (Float.of_Z 0) && Float.le v (Float.of_Z 1) then v else nan) px.
Proof.
  unfold ndvi, where_, da_and.
  by rewrite !da_map_map_time, da_zip_map_time, da_zip_self_map_time.
Qed.

Lemma ndvi_jja_spy px : ndvi_jja px = s2_l8_ind_spy px.
Proof. reflexivity. Qed.

(** X16.  The plots split the pixel series by sensor through the minute
    of the time label: a value is drawn as Landsat 8 when the minute is
    0 and as Sentinel-2 when it is 30.  So no scene is in both series, a
    scene with another minute is in neither, and a value of the summer
    series is also in the series of all seasons of the same sensor. *)
Theorem sensor_split_by_minute (px_good : DataArray spec_float) (i p : nat) (t : timestamp) (r : raster) (v : spec_float) :
  px_good !! i = Some (t, r) → r !! p = Some v →
  ∃ a b c,
    cell (ndvi_l8 px_good) i p = Some a ∧ cell (ndvi_s2 px_good) i p = Some b ∧
    cell (ndvi_jja_l8 px_good) i p = Some c ∧
    (isnull a = true ∨ isnull b = true) ∧
    (minute t ≠ 0 → minute t ≠ 30 → isnull a = true ∧ isnull b = true) ∧
    (isnull a = false → minute t = 0 ∧ a = v) ∧
    (isnull b = false → minute t = 30 ∧ b = v) ∧
    (isnull c = false → c = a).
Proof.
  intros Hi Hp. unfold ndvi_l8, ndvi_s2, ndvi_jja_l8.
  rewrite ndvi_jja_spy, s2_l8_ind_spy_map_time, ndvi_map_time.
  rewrite !where_minute_map_time, !da_map_time_compose.
  rewrite !(cell_da_map_time _ px_good i p t r v Hi Hp).
  do 3 eexists. do 3 (split; [reflexivity|]).
  unfold in_range_jja.
  destruct (bool_decide_reflect (minute t = 0)) as [H0|H0];
    destruct (bool_decide_reflect (minute t = 30)) as [H30|H30]; try lia;
    destruct (Float.ge v (Float.of_Z 0)), (Float.le v (Float.of_Z 1)),
             (bool_decide (time_season t = JJA)), v; simpl;
    repeat split; intros; try done; try lia; auto.
Qed.

Lemma sensor_split_by_minute_witness :
  (∃ a b, cell (ndvi_l8 sample_px) 0 0 = Some a ∧ cell (ndvi_s2 sample_px) 0 0 = Some b ∧
          (isnull a = true ∨ isnull b = true)) ∧
  (∃ a b, cell (ndvi_l8 sample_px) 2 0 = Some a ∧ cell (ndvi_s2 sample_px) 2 0 = Some b ∧
          isnull a = true ∧ isnull b = true).
Proof.
  destruct (sensor_split_by_minute sample_px 0 0 (Timestamp 2018 7 9 10 0) [half] half)
    as (a & b & c & Ha & Hb & _ & Hexcl & _); [reflexivity|reflexivity|].
  destruct (sensor_split_by_minute sample_px 2 0 (Timestamp 2018 7 3 10 15) [half] half)
    as (a' & b' & c' & Ha' & Hb' & _ & _ & Hneither & _); [reflexivity|reflexivity|].
  split.
  - exists a, b. split; [exact Ha|]. split; [exact Hb|exact Hexcl].
  - exists a', b'. split; [exact Ha'|]. split; [exact Hb'|].
    apply Hneither; simpl; lia.
Defined.

(** ** What the SAR composite is made of *)

Lemma vh_asc_map_time quantile nodata VH :
  vh_asc quantile nodata VH =
  da_map_time (λ _ v, if Float.ne v nodata && Float.ge v (quantile VH q05)
                         && Float.le v (quantile VH q95) then v else nan) VH.
Proof.
  unfold vh_asc, where_, sar_mask, da_and.
  by rewrite !da_map_map_time, !da_zip_map_time, da_zip_self_map_time.
Qed.

Lemma sar_kept_values_filter quantile nodata VH y p :
  List.filter (λ v, negb (isnull v))
    (omap (λ s : timestamp * list spec_float,
             (λ v, if bool_decide (time_season s.1 = JJA)
                   then (if Float.ne v nodata && Float.ge v (quantile VH q05)
                            && Float.le v (quantile VH q95) then v else nan)
                   else nan) <$> s.2 !! p)
          (group_year y VH)) =
  List.filter (λ v, negb (isnull v)) (sar_kept_values quantile nodata VH y p).
Proof.
  unfold group_year, sar_kept_values.
  generalize (quantile VH q05) (quantile VH q95). intros lo hi.
  induction VH as [|[t s] VH IH]; simpl; [done|].
  destruct (bool_decide (year t = y)); simpl.
  - destruct (s !! p) as [v|]; simpl; [|done].
    destruct (bool_decide (time_season t = JJA)); simpl; [|done].
    destruct (Float.ne v nodata && Float.ge v lo && Float.le v hi) eqn:Hk; simpl; [|done].
    assert (isnull v = false) as ->.
    { destruct v; try done. rewrite ge_nan_l, andb_false_r in Hk. discriminate Hk. }
    simpl. by f_equal.
  - by destruct (s !! p).
Qed.

(** X17.  The SAR composite of a year is, at each pixel, the median of
    the summer values of that year that differ from the nodata value and
    lie between the 0.05 and 0.95 quantiles of the band, and of nothing
    else: neither the nodata value nor a NaN enters the median. *)
Theorem sar_composite_values (quantile : DataArray spec_float → spec_float → spec_float) (nodata : spec_float) (VH : DataArray spec_float) (y : Z) (p : nat) :
  y ∈ year <$> times VH → (p < npix VH)%nat →
  ∃ r, sel_year (mpspy_vh_asc (vh_asc quantile nodata VH)) y = Some r ∧
       r !! p = Some (nanmedian (sar_kept_values quantile nodata VH y p)) ∧
       Forall (λ v, Float.eq v nodata = false ∧ isnull v = false)
              (sar_kept_values quantile nodata VH y p).
Proof.
  intros Hy Hp. unfold mpspy_vh_asc.
  rewrite where_season_map_time, vh_asc_map_time, da_map_time_compose.
  destruct (groupby_map_time
              (λ t v, if bool_decide (time_season t = JJA)
                      then (if Float.ne v nodata && Float.ge v (quantile VH q05)
                               && Float.le v (quantile VH q95) then v else nan)
                      else nan) VH y Hy) as (r & Hr & _ & Hcell).
  exists r. split; [done|]. split.
  - rewrite (Hcell p Hp). f_equal. apply nanmedian_ext, sar_kept_values_filter.
  - apply Forall_forall. intros v Hv.
    apply list_elem_of_omap in Hv as ([t s] & _ & Hf). simpl in Hf.
    destruct (s !! p) as [w|]; simpl in Hf; [|done].
    destruct (_ && _ && (Float.ne w nodata && _ && _)) eqn:Hk; [|done].
    injection Hf as <-.
    apply andb_true_iff in Hk as [_ [[Hne Hge]%andb_true_iff _]%andb_true_iff].
    unfold Float.ne in Hne. apply negb_true_iff in Hne. split; [done|].
    destruct w; try done. by rewrite ge_nan_l in Hge.
Qed.

Lemma sar_composite_values_witness :
  ∃ r, sel_year (mpspy_vh_asc (vh_asc sample_quantile sample_nodata sample_VH)) 2017 = Some r ∧
       r !! 1%nat = Some nan ∧ r !! 0%nat = Some (Float.of_Z (-15)).
Proof.
  destruct (sar_composite_values sample_quantile sample_nodata sample_VH 2017 1)
    as (r & Hr & H1 & _); [apply list_elem_of_In; vm_compute; tauto|vm_compute; lia|].
  destruct (sar_composite_values sample_quantile sample_nodata sample_VH 2017 0)
    as (r' & Hr' & H0 & _); [apply list_elem_of_In; vm_compute; tauto|vm_compute; lia|].
  rewrite Hr in Hr'. injection Hr' as <-.
  exists r. split; [exact Hr|]. split; [exact H1|exact H0].
Defined.
